(** * finxl.js coupon functions: a shallow embedding of [src/lib/coupon.js]

    The development follows the layout of the JavaScript module:

    - [JsNumber]: the numbers the module computes with, integers and
      [NaN];
    - [JsDate]: the part of the ECMAScript [Date] object the module uses
      (constructor, UTC getters, [setUTCDate], numeric conversion [+d]),
      at day granularity and with the local time zone equal to UTC;
    - [Internal]: the helpers the module imports from [@/_internal] and
      [@/_internal/dates];
    - [Coupon]: [argsValidator] and the six exported functions;
    - the properties of the coupon schedule.

    Dates are calendar dates: a time value is always midnight UTC of some
    day, so a [Date] is kept as its normalised year, month (0-based, as
    [getUTCMonth] returns it) and day of month.  A [Date] object is a
    [DateObj]: such a date, or Invalid Date.  The objects the module
    builds itself, with the constructor and with [setUTCDate], go through
    [TimeClip] and are Invalid Date when their time value is more than
    100,000,000 days from the epoch; the guards and getters of the module
    then see [NaN].  The helpers imported from [@/_internal/dates] are
    functions on calendar dates, as the specification describes them. *)

From Stdlib Require Import ZArith Lia List Bool String QArith Qreduction Qround.
Import ListNotations.

#[local] Open Scope Z_scope.

(** ** JavaScript numbers *)

Module JsNumber.

(** A number as the module computes with it: an integer, or [NaN]. *)
Inductive JsNum : Set :=
| Num (z : Z)
| NaN.

Coercion Num : Z >-> JsNum.

(** [a < b] and [a >= b]: false when an operand is [NaN]. *)
Definition num_lt (a b : JsNum) : bool :=
  match a, b with
  | Num x, Num y => x <? y
  | _, _ => false
  end.

Definition num_ge (a b : JsNum) : bool :=
  match a, b with
  | Num x, Num y => x >=? y
  | _, _ => false
  end.

(** [a !== b] on numbers: true when an operand is [NaN]. *)
Definition strict_neq (a b : JsNum) : bool :=
  match a, b with
  | Num x, Num y => negb (x =? y)
  | _, _ => true
  end.

(** [a - b] and [Math.max(a, b)]: [NaN] when an operand is. *)
Definition num_sub (a b : JsNum) : JsNum :=
  match a, b with
  | Num x, Num y => Num (x - y)
  | _, _ => NaN
  end.

Definition Math_max (a b : JsNum) : JsNum :=
  match a, b with
  | Num x, Num y => Num (Z.max x y)
  | _, _ => NaN
  end.

End JsNumber.

(** ** The ECMAScript [Date] object, at day granularity *)

Module JsDate.
Import JsNumber.

Record Date : Set := mkDate { year : Z; month : Z; day : Z }.

(** ECMAScript [DaysInYear] is 366 exactly for these years. *)
Definition isLeapYear (y : Z) : bool :=
  (y mod 4 =? 0) && (negb (y mod 100 =? 0) || (y mod 400 =? 0)).

Definition daysInYear (y : Z) : Z := if isLeapYear y then 366 else 365.

(** Length of month [m] (0 = January) of year [y]. *)
Definition daysInMonth (y m : Z) : Z :=
  if m =? 1 then (if isLeapYear y then 29 else 28)
  else if (m =? 3) || (m =? 5) || (m =? 8) || (m =? 10) then 30
  else 31.

(** Days of year [y] before the first of month [m]. *)
Definition daysBeforeMonth (y m : Z) : Z :=
  let l := if isLeapYear y then 1 else 0 in
  if m <=? 0 then 0
  else if m =? 1 then 31
  else if m =? 2 then 59 + l
  else if m =? 3 then 90 + l
  else if m =? 4 then 120 + l
  else if m =? 5 then 151 + l
  else if m =? 6 then 181 + l
  else if m =? 7 then 212 + l
  else if m =? 8 then 243 + l
  else if m =? 9 then 273 + l
  else if m =? 10 then 304 + l
  else 334 + l.

(** ECMAScript [DayFromYear]: the day number of 1 January of [y],
    counted from 1 January 1970. *)
Definition DayFromYear (y : Z) : Z :=
  365 * (y - 1970) + (y - 1969) / 4 - (y - 1901) / 100 + (y - 1601) / 400.

(** ECMAScript [MakeDay]: the day number of day [dt] of month [m] of year
    [y], where [m] and [dt] may lie outside their calendar ranges. *)
Definition MakeDay (y m dt : Z) : Z :=
  let ym := y + m / 12 in
  let mn := m mod 12 in
  DayFromYear ym + daysBeforeMonth ym mn + dt - 1.

Definition msPerDay : Z := 86400000.

(** The invariant of a [Date] object: its fields name a calendar day. *)
Definition wf (d : Date) : Prop :=
  0 <= month d <= 11 /\ 1 <= day d <= daysInMonth (year d) (month d).

(** [+d], [d.valueOf()] of a valid date: milliseconds since the epoch. *)
Definition valueOf (d : Date) : Z :=
  msPerDay * MakeDay (year d) (month d) (day d).

(** A [Date] object: a calendar date, or Invalid Date ([None]), the
    object whose time value is [NaN]. *)
Definition DateObj : Set := option Date.

Definition validObj (d : Date) : DateObj := Some d.

Coercion validObj : Date >-> DateObj.

Definition InvalidDate : DateObj := None.

(** The largest time value, 8.64e15 ms: 100,000,000 days. *)
Definition maxTime : Z := 8640000000000000.

(** ECMAScript [TimeClip]: a time value further than [maxTime] from the
    epoch becomes [NaN]. *)
Definition TimeClip (d : Date) : DateObj :=
  if Z.abs (valueOf d) <=? maxTime then Some d else None.

(** [+d], [d.valueOf()] of any [Date] object: [NaN] for Invalid Date,
    as the getters are. *)
Definition toNumber (d : DateObj) : JsNum :=
  match d with
  | Some x => Num (valueOf x)
  | None => NaN
  end.

Definition getUTCFullYear (d : DateObj) : JsNum :=
  match d with
  | Some x => Num (year x)
  | None => NaN
  end.

Definition getUTCMonth (d : DateObj) : JsNum :=
  match d with
  | Some x => Num (month x)
  | None => NaN
  end.

Definition getUTCDate (d : DateObj) : JsNum :=
  match d with
  | Some x => Num (day x)
  | None => NaN
  end.

Definition prevMonth (y m : Z) : Z * Z :=
  if m =? 0 then (y - 1, 11) else (y, m - 1).

Definition nextMonth (y m : Z) : Z * Z :=
  if m =? 11 then (y + 1, 0) else (y, m + 1).

(** Carrying a day number that lies outside the month [m] of year [y]
    (with [0 <= m <= 11]) into the neighbouring months, one month per
    unit of fuel. *)
Fixpoint carryDay (fuel : nat) (y m dt : Z) : Date :=
  match fuel with
  | O => mkDate y m dt
  | S n =>
      if dt <? 1 then
        let '(y', m') := prevMonth y m in
        carryDay n y' m' (dt + daysInMonth y' m')
      else if daysInMonth y m <? dt then
        let '(y', m') := nextMonth y m in
        carryDay n y' m' (dt - daysInMonth y m)
      else mkDate y m dt
  end.

(** The date whose day number is [MakeDay y m dt]: what the fields of a
    [Date] read after its time value is set from ([y], [m], [dt]). *)
Definition fromFields (y m dt : Z) : Date :=
  carryDay (S (Z.to_nat (Z.abs dt / 28))) (y + m / 12) (m mod 12) dt.

(** [new Date(y, m, dt)]: years 0 to 99 stand for 1900 to 1999, the
    arguments are read in local time, which is UTC here, and the time
    value goes through [TimeClip]: the object is Invalid Date when the
    day lies outside the range of time values, or an argument is [NaN]. *)
Definition newDate (y m dt : JsNum) : DateObj :=
  match y, m, dt with
  | Num y, Num m, Num dt =>
      let yr := if (0 <=? y) && (y <=? 99) then 1900 + y else y in
      TimeClip (fromFields yr m dt)
  | _, _, _ => None
  end.

(** [d.setUTCDate(dt)], as the new state of [d]: the day [dt] of the
    month of [d], through [TimeClip]; Invalid Date when [d] is, or when
    [dt] is [NaN]. *)
Definition setUTCDate (d : DateObj) (dt : JsNum) : DateObj :=
  match d, dt with
  | Some x, Num k => TimeClip (fromFields (year x) (month x) k)
  | _, _ => None
  end.

(** Position of the month of [d] on the month axis. *)
Definition monthIndex (d : Date) : Z := 12 * year d + month d.

(** Day number of the first day of the month at position [i] of the
    month axis. *)
Definition firstDay (i : Z) : Z := MakeDay 0 i 1.

(** The day number of a date: its time value in days. *)
Definition dayNumber (d : Date) : Z := MakeDay (year d) (month d) (day d).

End JsDate.

(** ** JavaScript values and completions *)

Module Js.
Import JsNumber JsDate.

(** The values the exported functions can be called with.  A [Date]
    object whose time value is [NaN] ("Invalid Date") is [JDate None].
    Numbers are integers: the module tests its numeric arguments for
    membership in sets of integers only, and a fraction fails these tests
    as an integer outside the set does. *)
Inductive JsVal : Set :=
| JUndefined
| JNumber (n : Z)
| JString (s : string)
| JDate (d : option Date).

Inductive ErrorClass : Set := ClsError | ClsTypeError | ClsRangeError.

(** What a thrown message reports; the message text itself starts with
    the name of the calling function, kept in [err_func]. *)
Inductive ErrorKind : Set :=
| MissingArgument
| InvalidSettlementDate
| InvalidMaturityDate
| InvalidFrequency
| InvalidBasis
| InvalidDateRange.

Record JsError : Set :=
  mkError { err_class : ErrorClass; err_func : string; err_kind : ErrorKind }.

(** The result of running a function with a bound on loop iterations:
    a returned value, a thrown exception, or a loop still running when
    the fuel ran out. *)
Inductive outcome (A : Type) : Type :=
| Ret (a : A)
| Throw (e : JsError)
| OutOfFuel.

Arguments Ret {A} & a.
Arguments Throw {A} e.
Arguments OutOfFuel {A}.

Definition bind {A B : Type} (c : outcome A) (k : A -> outcome B)
    : outcome B :=
  match c with
  | Ret a => k a
  | Throw e => Throw e
  | OutOfFuel => OutOfFuel
  end.

Declare Scope js_scope.
Delimit Scope js_scope with js.

Notation "'let*' x ':=' c 'in' k" := (bind c (fun x => k))
  (at level 10, x name, c at level 100, k at level 200) : js_scope.

(** The time value of a valid [Date] argument.  Applied only to values
    that passed [validDate]; the epoch stands for anything else. *)
Definition dateOf (v : JsVal) : Date :=
  match v with
  | JDate (Some d) => d
  | _ => mkDate 1970 0 1
  end.

(** The number held by a numeric argument.  Applied only to values that
    passed [validFrequency] or [validBasis]. *)
Definition numberOf (v : JsVal) : Z :=
  match v with
  | JNumber n => n
  | _ => 0
  end.

(** A default parameter [x = dflt]: taken when the argument is
    [undefined]. *)
Definition orDefault (v dflt : JsVal) : JsVal :=
  match v with
  | JUndefined => dflt
  | _ => v
  end.

(** [Math.round] on a rational: the nearest integer, halves upwards. *)
Definition Math_round (q : Q) : Z := Qfloor (q + (1 # 2))%Q.

End Js.

(** ** The helpers imported from [@/_internal] *)

Module Internal.
Import JsNumber JsDate Js.

(** Modelled from the spec: [hasRequiredArgs] of [@/_internal] is not
    among the sources; it is true iff every value is present, that is,
    not undefined. *)
Definition hasRequiredArgs (args : list JsVal) : bool :=
  forallb (fun v => match v with JUndefined => false | _ => true end) args.

(** Modelled from the spec: [isEOM] of [@/_internal/dates] is not among
    the sources; it tells whether a date is the last day of its month. *)
Definition isEOM (d : Date) : bool :=
  day d =? daysInMonth (year d) (month d).

(** Modelled from the spec: [splitDate] of [@/_internal/dates] is not
    among the sources; it returns (year, month, day).  The month is the
    calendar month, 1 to 12: [coupncd] passes [m1 - 1] to the [Date]
    constructor, whose months start at 0. *)
Definition splitDate (d : Date) : Z * Z * Z :=
  (year d, month d + 1, day d).

(** Modelled from the spec: [addDate] of [@/_internal/dates] is not among
    the sources.  It returns the date shifted by the given offset; if the
    end-of-month flag is set and the date is the last day of its month,
    the result is forced to the last day of the resulting month, the one
    reached by the year and month offsets, regardless of day arithmetic.
    Otherwise the result is that of day arithmetic, the arithmetic of the
    [Date] object on (year + years, month + months, day + days), with its
    overflow when the target day does not exist in the target month: the
    day runs over into the following month. *)
Definition addDate (d : Date) (years months days : Z) (eom : bool) : Date :=
  if eom && isEOM d
  then fromFields (year d + years) (month d + months + 1) 0
  else fromFields (year d + years) (month d + months) (day d + days).

(** [addDate] called on a [Date] object.  Modelled from the spec, which
    describes the shift of a calendar date only: Invalid Date stays
    Invalid Date.  The module never passes one, the guards in front of
    its calls being false on [NaN]. *)
Definition addDateObj (d : DateObj) (years months days : Z) (eom : bool)
    : DateObj :=
  match d with
  | Some x => Some (addDate x years months days eom)
  | None => None
  end.

(** The US (NASD) 30/360 day count. *)
Definition days360US (a b : Date) : Z :=
  let febEnd (x : Date) := (month x =? 1) && isEOM x in
  let d1 := day a in
  let d2 := day b in
  let d2 := if febEnd a && febEnd b then 30 else d2 in
  let d1 := if febEnd a then 30 else d1 in
  let d2 := if (d2 =? 31) && (30 <=? d1) then 30 else d2 in
  let d1 := if d1 =? 31 then 30 else d1 in
  360 * (year b - year a) + 30 * (month b - month a) + (d2 - d1).

(** The European 30/360 day count. *)
Definition days360EU (a b : Date) : Z :=
  360 * (year b - year a) + 30 * (month b - month a)
  + (Z.min (day b) 30 - Z.min (day a) 30).

(** Calendar days from [a] to [b]. *)
Definition daysActual (a b : Date) : Z :=
  (valueOf b - valueOf a) / msPerDay.

(** Modelled from the spec: [daysBetween] of [@/_internal/dates] is not
    among the sources.  It is the signed day count from the first date to
    the second under the basis convention: 30/360 for basis 0 (US) and 4
    (European), calendar days for bases 1, 2 and 3.  An omitted basis
    ([None]) is basis 0. *)
Definition daysBetween (a b : Date) (basis : option Z) : Z :=
  match basis with
  | None => days360US a b
  | Some n =>
      if n =? 0 then days360US a b
      else if n =? 4 then days360EU a b
      else daysActual a b
  end.

(** [daysBetween] called on [Date] objects.  Modelled from the spec,
    which describes the count between calendar dates only: with an
    Invalid Date the count is [NaN], as arithmetic on its time value or
    its fields is. *)
Definition daysBetweenObj (a b : DateObj) (basis : option Z) : JsNum :=
  match a, b with
  | Some x, Some y => Num (daysBetween x y basis)
  | _, _ => NaN
  end.

(** Modelled from the spec: [getDaysInYear] of [@/_internal/dates] is not
    among the sources.  It is 360 for bases 0, 2 and 4, 365 for basis 3
    and the length of the given year for basis 1. *)
Definition getDaysInYear (y basis : Z) : Z :=
  if basis =? 1 then daysInYear y
  else if basis =? 3 then 365
  else 360.

End Internal.

(** ** [src/lib/coupon.js] *)

Module Coupon.
Import JsNumber JsDate Js Internal.

#[local] Open Scope js_scope.

Definition validDate (x : JsVal) : bool :=
  match x with
  | JDate (Some _) => true
  | _ => false
  end.

Definition validFrequency (x : JsVal) : bool :=
  match x with
  | JNumber n => existsb (Z.eqb n) [1; 2; 4]
  | _ => false
  end.

Definition validBasis (x : JsVal) : bool :=
  match x with
  | JNumber n => existsb (Z.eqb n) [0; 1; 2; 3; 4]
  | _ => false
  end.

Definition argsValidator (funcName : string)
    (settlement maturity frequency basis : JsVal) : outcome bool :=
  if negb (hasRequiredArgs [settlement; maturity; frequency]) then
    Throw (mkError ClsError funcName MissingArgument)
  else if negb (validDate settlement) then
    Throw (mkError ClsTypeError funcName InvalidSettlementDate)
  else if negb (validDate maturity) then
    Throw (mkError ClsTypeError funcName InvalidMaturityDate)
  else if negb (validFrequency frequency) then
    Throw (mkError ClsRangeError funcName InvalidFrequency)
  else if negb (validBasis basis) then
    Throw (mkError ClsRangeError funcName InvalidBasis)
  else if daysBetween (dateOf settlement) (dateOf maturity) None <=? 0 then
    Throw (mkError ClsRangeError funcName InvalidDateRange)
  else Ret true.

(** [while (+settlement < +d) d = addDate(d, 0, -12 / frequency, 0, eom)] *)
Fixpoint couppcd_loop (fuel : nat) (settlement d : Date) (frequency : Z)
    (eom : bool) : outcome Date :=
  if valueOf settlement <? valueOf d then
    match fuel with
    | O => OutOfFuel
    | S n =>
        couppcd_loop n settlement (addDate d 0 (-12 / frequency) 0 eom)
          frequency eom
    end
  else Ret d.

Definition couppcd (fuel : nat)
    (settlement maturity frequency basis : JsVal) : outcome Date :=
  let basis := orDefault basis (JNumber 0) in
  let* _ := argsValidator "couppcd" settlement maturity frequency basis in
  let d := dateOf maturity in
  let eom := isEOM (dateOf maturity) in
  couppcd_loop fuel (dateOf settlement) d (numberOf frequency) eom.

(** [while (+settlement >= +d) d = addDate(d, 0, 12 / frequency, 0)];
    the omitted last argument of [addDate] is its end-of-month flag.
    The guard is false when [d] is Invalid Date. *)
Fixpoint coupncd_loop (fuel : nat) (settlement : Date) (d : DateObj)
    (frequency : Z) : outcome DateObj :=
  if num_ge (toNumber settlement) (toNumber d) then
    match fuel with
    | O => OutOfFuel
    | S n =>
        coupncd_loop n settlement (addDateObj d 0 (12 / frequency) 0 false)
          frequency
    end
  else Ret d.

(** The object [coupncd] holds in [d] when it enters its loop.  When the
    constructor gives Invalid Date, [m1 !== d.getUTCMonth()] holds,
    [setUTCDate] leaves [d] as it is, and [+settlement < +d] does not
    hold. *)
Definition coupncd_start (settlement maturity : Date) : DateObj :=
  let '(y1, m1, d1) := splitDate maturity in
  let eom := isEOM maturity in
  let d := newDate (getUTCFullYear settlement) (m1 - 1) d1 in
  let d := if strict_neq m1 (getUTCMonth d) then setUTCDate d 0 else d in
  if num_lt (toNumber settlement) (toNumber d)
  then addDateObj d (-1) 0 0 eom
  else d.

(** What [coupncd] does to [d] after its loop; Invalid Date stays
    Invalid Date, [Math.max] being [NaN] on it. *)
Definition coupncd_finish (maturity : Date) (d : DateObj) : DateObj :=
  let '(y1, m1, d1) := splitDate maturity in
  let month := getUTCMonth d in
  let d := setUTCDate d (Math_max (getUTCDate d) d1) in
  if strict_neq month (getUTCMonth d) then setUTCDate d 0 else d.

Definition coupncd (fuel : nat)
    (settlement maturity frequency basis : JsVal) : outcome DateObj :=
  let basis := orDefault basis (JNumber 0) in
  let* _ := argsValidator "coupncd" settlement maturity frequency basis in
  let d := coupncd_start (dateOf settlement) (dateOf maturity) in
  let* d := coupncd_loop fuel (dateOf settlement) d (numberOf frequency) in
  Ret (coupncd_finish (dateOf maturity) d).

Definition coupdaybs (fuel : nat)
    (settlement maturity frequency basis : JsVal) : outcome Z :=
  let basis := orDefault basis (JNumber 0) in
  let* _ := argsValidator "coupdaybs" settlement maturity frequency basis in
  let* pcd := couppcd fuel settlement maturity frequency basis in
  Ret (daysBetween pcd (dateOf settlement) (Some (numberOf basis))).

(** [coupdays] and [coupdaysnc] count days up to the object [coupncd]
    returned, so their result is a [JsNum]. *)
Definition coupdays (fuel : nat)
    (settlement maturity frequency basis : JsVal) : outcome JsNum :=
  let basis := orDefault basis (JNumber 0) in
  let* _ := argsValidator "coupdays" settlement maturity frequency basis in
  if numberOf basis =? 1 then
    let* pcd := couppcd fuel settlement maturity frequency basis in
    let* ncd := coupncd fuel settlement maturity frequency basis in
    Ret (daysBetweenObj pcd ncd (Some (numberOf basis)))
  else
    Ret (Num (Math_round (inject_Z (getDaysInYear 0 (numberOf basis))
                          / inject_Z (numberOf frequency))%Q)).

Definition coupdaysnc (fuel : nat)
    (settlement maturity frequency basis : JsVal) : outcome JsNum :=
  let basis := orDefault basis (JNumber 0) in
  let* _ := argsValidator "coupdaysnc" settlement maturity frequency basis in
  if numberOf basis =? 0 then
    let* days := coupdays fuel settlement maturity frequency basis in
    let* daybs := coupdaybs fuel settlement maturity frequency basis in
    Ret (num_sub days daybs)
  else
    let* ncd := coupncd fuel settlement maturity frequency basis in
    Ret (daysBetweenObj (dateOf settlement) ncd (Some (numberOf basis))).

Definition coupnum (fuel : nat)
    (settlement maturity frequency basis : JsVal) : outcome Q :=
  let basis := orDefault basis (JNumber 0) in
  let* _ := argsValidator "coupnum" settlement maturity frequency basis in
  let* pcd := couppcd fuel settlement maturity frequency basis in
  let '(y, m, _) := splitDate pcd in
  let '(y1, m1, _) := splitDate (dateOf maturity) in
  let months := (y1 - y) * 12 + (m1 - m) in
  Ret (Qred (inject_Z (months * numberOf frequency) / inject_Z 12)%Q).

(** The inputs the validator accepts: well-formed dates, settlement
    before maturity as [argsValidator] measures it, and a frequency and a
    basis from the sets the validator allows. *)
Definition ValidInput (settlement maturity : Date) (frequency basis : Z)
    : Prop :=
  wf settlement /\ wf maturity
  /\ In frequency [1; 2; 4] /\ In basis [0; 1; 2; 3; 4]
  /\ 0 < daysBetween settlement maturity None.

(** The settlements whose year is two years or more inside the years
    that lie wholly within the range of time values, -271820 to 275759.
    [coupncd] builds no date more than two years from settlement, so for
    these settlements every [Date] object it holds is a valid date. *)
Definition InTimeRange (settlement : Date) : Prop :=
  -271818 <= year settlement <= 275757.

(** One backward step of [couppcd], one forward step of [coupncd]. *)
Definition pcd_step (frequency : Z) (eom : bool) (d : Date) : Date :=
  addDate d 0 (-12 / frequency) 0 eom.

Definition ncd_step (frequency : Z) (d : Date) : Date :=
  addDate d 0 (12 / frequency) 0 false.

(** An iteration bound within which both loops end on valid inputs: a
    backward step of [couppcd] leaves two months or more behind, and the
    forward loop of [coupncd] starts at most 24 months short of
    settlement and gains three months or more per step. *)
Definition coupon_fuel (settlement maturity : Date) : nat :=
  Nat.max 9 (S (Z.to_nat (monthIndex maturity - monthIndex settlement))).

End Coupon.

(** ** [coupncd] on calendar dates

    An auxiliary computation for the proofs: the steps of [coupncd] with
    [TimeClip] left out of the constructor and of [setUTCDate], so that
    [d] is a calendar date throughout.  [coupncd] returns Invalid Date
    or the date of this computation ([coupncd_valid_date]), and the
    latter for a settlement in [InTimeRange] ([coupncd_in_range]); the
    calendar properties are proved of this computation and carried over
    to [coupncd]. *)

Module Unclipped.
Import JsDate Js Internal Coupon.

#[local] Open Scope js_scope.

(** The day the constructor is asked for, and the day [setUTCDate] is
    asked for. *)
Definition new_date (y m dt : Z) : Date :=
  let yr := if (0 <=? y) && (y <=? 99) then 1900 + y else y in
  fromFields yr m dt.

Definition set_date (d : Date) (dt : Z) : Date :=
  fromFields (year d) (month d) dt.

(** The loop of [coupncd], the date it is entered with, the closing
    correction and the whole, as in [Coupon]. *)
Fixpoint ncd_loop (fuel : nat) (settlement d : Date) (frequency : Z)
    : outcome Date :=
  if valueOf settlement >=? valueOf d then
    match fuel with
    | O => OutOfFuel
    | S n =>
        ncd_loop n settlement (addDate d 0 (12 / frequency) 0 false)
          frequency
    end
  else Ret d.

Definition ncd_start (settlement maturity : Date) : Date :=
  let '(y1, m1, d1) := splitDate maturity in
  let eom := isEOM maturity in
  let d := new_date (year settlement) (m1 - 1) d1 in
  let d := if negb (m1 =? month d) then set_date d 0 else d in
  if valueOf settlement <? valueOf d then addDate d (-1) 0 0 eom else d.

Definition ncd_finish (maturity d : Date) : Date :=
  let '(y1, m1, d1) := splitDate maturity in
  let month0 := month d in
  let d := set_date d (Z.max (day d) d1) in
  if negb (month0 =? month d) then set_date d 0 else d.

Definition ncd (fuel : nat)
    (settlement maturity frequency basis : JsVal) : outcome Date :=
  let basis := orDefault basis (JNumber 0) in
  let* _ := argsValidator "coupncd" settlement maturity frequency basis in
  let d := ncd_start (dateOf settlement) (dateOf maturity) in
  let* d := ncd_loop fuel (dateOf settlement) d (numberOf frequency) in
  Ret (ncd_finish (dateOf maturity) d).

End Unclipped.

(** ** The validator as the specification words it

    The checks of the validator as a list in the order in which they are
    to be made, and validation as raising the error of the first check
    of the list that fails. *)

Module ValidatorSpec.
Import JsNumber JsDate Js Internal Coupon.

Inductive Check : Set :=
| Presence
| SettlementIsDate
| MaturityIsDate
| FrequencyInSet
| BasisInSet
| SettlementBeforeMaturity.

Definition check_order : list Check :=
  [Presence; SettlementIsDate; MaturityIsDate; FrequencyInSet; BasisInSet;
   SettlementBeforeMaturity].

(** Position of a check in [check_order]. *)
Definition check_index (c : Check) : nat :=
  match c with
  | Presence => 0
  | SettlementIsDate => 1
  | MaturityIsDate => 2
  | FrequencyInSet => 3
  | BasisInSet => 4
  | SettlementBeforeMaturity => 5
  end.

Definition passes (c : Check) (settlement maturity frequency basis : JsVal)
    : bool :=
  match c with
  | Presence => hasRequiredArgs [settlement; maturity; frequency]
  | SettlementIsDate => validDate settlement
  | MaturityIsDate => validDate maturity
  | FrequencyInSet => validFrequency frequency
  | BasisInSet => validBasis basis
  | SettlementBeforeMaturity =>
      0 <? daysBetween (dateOf settlement) (dateOf maturity) None
  end.

Definition error_of (funcName : string) (c : Check) : JsError :=
  match c with
  | Presence => mkError ClsError funcName MissingArgument
  | SettlementIsDate => mkError ClsTypeError funcName InvalidSettlementDate
  | MaturityIsDate => mkError ClsTypeError funcName InvalidMaturityDate
  | FrequencyInSet => mkError ClsRangeError funcName InvalidFrequency
  | BasisInSet => mkError ClsRangeError funcName InvalidBasis
  | SettlementBeforeMaturity => mkError ClsRangeError funcName InvalidDateRange
  end.

Definition first_failure (settlement maturity frequency basis : JsVal)
    : option Check :=
  find (fun c => negb (passes c settlement maturity frequency basis))
    check_order.

Definition validate (funcName : string)
    (settlement maturity frequency basis : JsVal) : outcome bool :=
  match first_failure settlement maturity frequency basis with
  | Some c => Throw (error_of funcName c)
  | None => Ret true
  end.

End ValidatorSpec.

Import JsNumber JsDate Js Internal Coupon ValidatorSpec.

(** * Properties *)

(** ** Calendar arithmetic *)

Module DateFacts.

Lemma daysInMonth_bounds (y m : Z) : 28 <= daysInMonth y m <= 31.
Proof.
  unfold daysInMonth.
  destruct (m =? 1); [destruct (isLeapYear y); lia|].
  destruct ((m =? 3) || (m =? 5) || (m =? 8) || (m =? 10)); lia.
Qed.

Ltac month_cases m :=
  assert (m = 0 \/ m = 1 \/ m = 2 \/ m = 3 \/ m = 4 \/ m = 5 \/ m = 6 \/
          m = 7 \/ m = 8 \/ m = 9 \/ m = 10 \/ m = 11) as Hcases by lia;
  repeat (destruct Hcases as [Hcases | Hcases]; [subst m | ]); [.. | subst m].

Lemma daysBeforeMonth_succ (y m : Z) :
  0 <= m < 11 ->
  daysBeforeMonth y (m + 1) = daysBeforeMonth y m + daysInMonth y m.
Proof.
  intros Hm. unfold daysBeforeMonth, daysInMonth.
  month_cases m; try lia; cbn; destruct (isLeapYear y); reflexivity.
Qed.

Lemma daysBeforeMonth_last (y : Z) :
  daysBeforeMonth y 11 + daysInMonth y 11 = daysInYear y.
Proof.
  unfold daysBeforeMonth, daysInMonth, daysInYear.
  cbn; destruct (isLeapYear y); reflexivity.
Qed.

Lemma DayFromYear_succ (y : Z) :
  DayFromYear (y + 1) = DayFromYear y + daysInYear y.
Proof.
  unfold DayFromYear, daysInYear, isLeapYear.
  destruct (y mod 4 =? 0) eqn:E4; destruct (y mod 100 =? 0) eqn:E100;
    destruct (y mod 400 =? 0) eqn:E400; cbn [andb orb negb];
    rewrite ?Z.eqb_eq, ?Z.eqb_neq in *;
    Z.div_mod_to_equations; lia.
Qed.

Lemma MakeDay_firstDay (y m dt : Z) :
  MakeDay y m dt = firstDay (12 * y + m) + dt - 1.
Proof.
  unfold firstDay, MakeDay.
  replace ((12 * y + m) / 12) with (y + m / 12)
    by (Z.div_mod_to_equations; lia).
  replace ((12 * y + m) mod 12) with (m mod 12)
    by (Z.div_mod_to_equations; lia).
  cbn [Z.add]. lia.
Qed.

Lemma firstDay_succ (i : Z) :
  firstDay (i + 1) = firstDay i + daysInMonth (i / 12) (i mod 12).
Proof.
  unfold firstDay, MakeDay. cbn [Z.add].
  assert (Hr : 0 <= i mod 12 < 12) by (apply Z.mod_pos_bound; lia).
  destruct (Z.eq_dec (i mod 12) 11) as [E | E].
  - replace ((i + 1) / 12) with (i / 12 + 1)
      by (Z.div_mod_to_equations; lia).
    replace ((i + 1) mod 12) with 0 by (Z.div_mod_to_equations; lia).
    rewrite E, DayFromYear_succ, <- daysBeforeMonth_last.
    unfold daysBeforeMonth at 1. cbn. lia.
  - replace ((i + 1) / 12) with (i / 12)
      by (Z.div_mod_to_equations; lia).
    replace ((i + 1) mod 12) with (i mod 12 + 1)
      by (Z.div_mod_to_equations; lia).
    rewrite daysBeforeMonth_succ by lia. lia.
Qed.

Lemma firstDay_step_bounds (i : Z) :
  firstDay i + 28 <= firstDay (i + 1) <= firstDay i + 31.
Proof.
  rewrite firstDay_succ.
  pose proof (daysInMonth_bounds (i / 12) (i mod 12)). lia.
Qed.

Lemma firstDay_span (i : Z) (n : nat) :
  firstDay i + 28 * Z.of_nat n <= firstDay (i + Z.of_nat n)
  <= firstDay i + 31 * Z.of_nat n.
Proof.
  induction n as [| n IH].
  - change (Z.of_nat 0) with 0. replace (i + 0) with i by lia. lia.
  - rewrite Nat2Z.inj_succ.
    replace (i + Z.succ (Z.of_nat n)) with (i + Z.of_nat n + 1) by lia.
    pose proof (firstDay_step_bounds (i + Z.of_nat n)). lia.
Qed.

Lemma firstDay_le (i j : Z) :
  i <= j ->
  firstDay i + 28 * (j - i) <= firstDay j <= firstDay i + 31 * (j - i).
Proof.
  intros Hij.
  pose proof (firstDay_span i (Z.to_nat (j - i))) as H.
  rewrite Z2Nat.id in H by lia.
  replace (i + (j - i)) with j in H by lia. exact H.
Qed.

Lemma firstDay_lt (i j : Z) : i < j -> firstDay i + 28 <= firstDay j.
Proof. intros H. pose proof (firstDay_le i j). lia. Qed.

Lemma valueOf_dayNumber (d : Date) : valueOf d = msPerDay * dayNumber d.
Proof. reflexivity. Qed.

Lemma dayNumber_firstDay (d : Date) :
  dayNumber d = firstDay (monthIndex d) + day d - 1.
Proof. unfold dayNumber, monthIndex. apply MakeDay_firstDay. Qed.

Lemma monthIndex_div_mod (d : Date) :
  0 <= month d <= 11 ->
  monthIndex d / 12 = year d /\ monthIndex d mod 12 = month d.
Proof. unfold monthIndex. intros H. Z.div_mod_to_equations. lia. Qed.

(** A well-formed date lies inside the month its fields name. *)
Lemma dayNumber_in_month (d : Date) :
  wf d ->
  firstDay (monthIndex d) <= dayNumber d < firstDay (monthIndex d + 1).
Proof.
  intros [Hm Hd]. rewrite dayNumber_firstDay, firstDay_succ.
  destruct (monthIndex_div_mod d Hm) as [-> ->]. lia.
Qed.

(** Conversely, the month of a well-formed date is fixed by any bracket
    of first days around its day number. *)
Lemma monthIndex_bracket (d : Date) (i j : Z) :
  wf d -> firstDay i <= dayNumber d < firstDay j -> i <= monthIndex d < j.
Proof.
  intros Hwf [Hlo Hhi]. pose proof (dayNumber_in_month d Hwf) as [Hin1 Hin2].
  split.
  - destruct (Z_lt_le_dec (monthIndex d) i) as [Hlt | ]; [| assumption].
    pose proof (firstDay_le (monthIndex d + 1) i). lia.
  - destruct (Z_lt_le_dec (monthIndex d) j) as [| Hge]; [assumption |].
    pose proof (firstDay_le j (monthIndex d)). lia.
Qed.

Lemma valueOf_lt_iff (a b : Date) :
  valueOf a < valueOf b <-> dayNumber a < dayNumber b.
Proof. rewrite !valueOf_dayNumber. unfold msPerDay. lia. Qed.

Lemma valueOf_le_iff (a b : Date) :
  valueOf a <= valueOf b <-> dayNumber a <= dayNumber b.
Proof. rewrite !valueOf_dayNumber. unfold msPerDay. lia. Qed.

(** Time values order well-formed dates as the calendar does. *)
Lemma monthIndex_lt_dayNumber (a b : Date) :
  wf a -> wf b -> monthIndex a < monthIndex b -> dayNumber a < dayNumber b.
Proof.
  intros Ha Hb Hlt.
  pose proof (dayNumber_in_month a Ha). pose proof (dayNumber_in_month b Hb).
  pose proof (firstDay_le (monthIndex a + 1) (monthIndex b)). lia.
Qed.

Lemma dayNumber_le_monthIndex (a b : Date) :
  wf a -> wf b -> dayNumber a <= dayNumber b -> monthIndex a <= monthIndex b.
Proof.
  intros Ha Hb Hle.
  destruct (Z_lt_le_dec (monthIndex b) (monthIndex a)) as [Hlt |]; [| lia].
  pose proof (monthIndex_lt_dayNumber b a Hb Ha Hlt). lia.
Qed.

Lemma wf_eq_of_dayNumber (a b : Date) :
  wf a -> wf b -> dayNumber a = dayNumber b -> a = b.
Proof.
  intros Ha Hb E.
  assert (Hi : monthIndex a = monthIndex b).
  { pose proof (dayNumber_le_monthIndex a b Ha Hb).
    pose proof (dayNumber_le_monthIndex b a Hb Ha). lia. }
  rewrite !dayNumber_firstDay, Hi in E.
  destruct Ha as [Hma _], Hb as [Hmb _].
  destruct (monthIndex_div_mod a Hma) as [Hya Hmoa].
  destruct (monthIndex_div_mod b Hmb) as [Hyb Hmob].
  rewrite Hi in Hya, Hmoa.
  destruct a, b; cbn in *. f_equal; lia.
Qed.

Lemma MakeDay_norm (y m dt : Z) :
  MakeDay y m dt = MakeDay (y + m / 12) (m mod 12) dt.
Proof. rewrite !MakeDay_firstDay. f_equal. f_equal. f_equal.
  Z.div_mod_to_equations. lia. Qed.

Lemma prevMonth_spec (y m : Z) :
  0 <= m <= 11 ->
  let '(y', m') := prevMonth y m in
  0 <= m' <= 11 /\ 12 * y' + m' = 12 * y + m - 1.
Proof.
  intros Hm. unfold prevMonth. destruct (m =? 0) eqn:E.
  - apply Z.eqb_eq in E. lia.
  - apply Z.eqb_neq in E. lia.
Qed.

Lemma nextMonth_spec (y m : Z) :
  0 <= m <= 11 ->
  let '(y', m') := nextMonth y m in
  0 <= m' <= 11 /\ 12 * y' + m' = 12 * y + m + 1.
Proof.
  intros Hm. unfold nextMonth. destruct (m =? 11) eqn:E.
  - apply Z.eqb_eq in E. lia.
  - apply Z.eqb_neq in E. lia.
Qed.

Lemma daysInMonth_firstDay (y m : Z) :
  0 <= m <= 11 ->
  firstDay (12 * y + m + 1) = firstDay (12 * y + m) + daysInMonth y m.
Proof.
  intros Hm. rewrite firstDay_succ. f_equal. f_equal.
  all: Z.div_mod_to_equations; lia.
Qed.

(** Carrying keeps the day number and the month range. *)
Lemma carryDay_dayNumber (fuel : nat) :
  forall y m dt, 0 <= m <= 11 ->
  dayNumber (carryDay fuel y m dt) = MakeDay y m dt
  /\ 0 <= month (carryDay fuel y m dt) <= 11.
Proof.
  induction fuel as [| n IH]; intros y m dt Hm; cbn [carryDay].
  - split; [reflexivity | exact Hm].
  - destruct (dt <? 1).
    + pose proof (prevMonth_spec y m Hm) as Hp.
      destruct (prevMonth y m) as [y' m']. destruct Hp as [Hm' Hi].
      destruct (IH y' m' (dt + daysInMonth y' m') Hm') as [E R].
      split; [| exact R]. rewrite E, !MakeDay_firstDay.
      pose proof (daysInMonth_firstDay y' m' Hm') as F.
      replace (12 * y' + m' + 1) with (12 * y + m) in F by lia.
      rewrite Hi in F |- *. lia.
    + destruct (daysInMonth y m <? dt).
      * pose proof (nextMonth_spec y m Hm) as Hp.
        destruct (nextMonth y m) as [y' m']. destruct Hp as [Hm' Hi].
        destruct (IH y' m' (dt - daysInMonth y m) Hm') as [E R].
        split; [| exact R]. rewrite E, !MakeDay_firstDay.
        pose proof (daysInMonth_firstDay y m Hm) as F.
        rewrite Hi. lia.
      * split; [reflexivity | exact Hm].
Qed.

(** With enough fuel the carried day lies inside its month. *)
Lemma carryDay_day (fuel : nat) :
  forall y m dt,
  (1 <= dt /\ (dt <= daysInMonth y m \/ dt <= 28 * (Z.of_nat fuel + 1)))
  \/ (dt < 1 /\ - 28 * Z.of_nat fuel < dt) ->
  let r := carryDay fuel y m dt in
  1 <= day r <= daysInMonth (year r) (month r).
Proof.
  induction fuel as [| n IH]; intros y m dt H; cbn [carryDay].
  - cbn [day year month]. pose proof (daysInMonth_bounds y m).
    change (Z.of_nat 0) with 0 in H. lia.
  - rewrite Nat2Z.inj_succ in H.
    destruct (dt <? 1) eqn:E1.
    + apply Z.ltb_lt in E1. destruct (prevMonth y m) as [y' m'].
      apply IH. pose proof (daysInMonth_bounds y' m'). lia.
    + apply Z.ltb_ge in E1.
      destruct (daysInMonth y m <? dt) eqn:E2.
      * apply Z.ltb_lt in E2. destruct (nextMonth y m) as [y' m'].
        apply IH. pose proof (daysInMonth_bounds y m). lia.
      * apply Z.ltb_ge in E2. cbn [day year month]. lia.
Qed.

Lemma fromFields_wf (y m dt : Z) : wf (fromFields y m dt).
Proof.
  unfold fromFields, wf.
  assert (Hm : 0 <= m mod 12 <= 11)
    by (pose proof (Z.mod_pos_bound m 12); lia).
  split.
  - apply carryDay_dayNumber; exact Hm.
  - apply carryDay_day. rewrite Nat2Z.inj_succ, Z2Nat.id.
    + Z.div_mod_to_equations. lia.
    + apply Z.div_pos; lia.
Qed.

Lemma fromFields_dayNumber (y m dt : Z) :
  dayNumber (fromFields y m dt) = MakeDay y m dt.
Proof.
  unfold fromFields. rewrite (MakeDay_norm y m dt).
  apply carryDay_dayNumber. pose proof (Z.mod_pos_bound m 12). lia.
Qed.

Lemma fromFields_id (d : Date) :
  wf d -> fromFields (year d) (month d) (day d) = d.
Proof.
  intros Hwf. apply wf_eq_of_dayNumber; [apply fromFields_wf | exact Hwf |].
  apply fromFields_dayNumber.
Qed.

Lemma setUTCDate_wf (d : Date) (dt : Z) : wf (Unclipped.set_date d dt).
Proof. apply fromFields_wf. Qed.

Lemma newDate_wf (y m dt : Z) : wf (Unclipped.new_date y m dt).
Proof. apply fromFields_wf. Qed.

Lemma setUTCDate_dayNumber (d : Date) (dt : Z) :
  dayNumber (Unclipped.set_date d dt) = dayNumber d + (dt - day d).
Proof.
  unfold Unclipped.set_date. rewrite fromFields_dayNumber.
  unfold dayNumber. rewrite !MakeDay_firstDay. lia.
Qed.

Lemma isEOM_iff (d : Date) :
  wf d ->
  isEOM d = true <-> dayNumber d + 1 = firstDay (monthIndex d + 1).
Proof.
  intros [Hm Hd]. unfold isEOM. rewrite Z.eqb_eq, dayNumber_firstDay.
  unfold monthIndex. rewrite daysInMonth_firstDay by exact Hm. lia.
Qed.

(** Day 0 of the following month is the last day of a month. *)
Lemma lastDay_spec (y m : Z) :
  let r := fromFields y (m + 1) 0 in
  wf r /\ monthIndex r = 12 * y + m /\ isEOM r = true
  /\ dayNumber r = firstDay (12 * y + m + 1) - 1.
Proof.
  intros r. pose proof (fromFields_wf y (m + 1) 0) as Hwf. fold r in Hwf.
  assert (E : dayNumber r = firstDay (12 * y + m + 1) - 1).
  { unfold r. rewrite fromFields_dayNumber, MakeDay_firstDay.
    replace (12 * y + (m + 1)) with (12 * y + m + 1) by lia. lia. }
  assert (Hi : monthIndex r = 12 * y + m).
  { pose proof (monthIndex_bracket r (12 * y + m) (12 * y + m + 1) Hwf) as B.
    pose proof (firstDay_step_bounds (12 * y + m)). lia. }
  repeat split; try apply Hwf; try assumption.
  apply isEOM_iff; [exact Hwf |]. rewrite Hi. lia.
Qed.

Lemma addDate_wf (d : Date) (years months days : Z) (eom : bool) :
  wf (addDate d years months days eom).
Proof. unfold addDate. destruct (eom && isEOM d); apply fromFields_wf. Qed.

(** A shift by whole months lands in the target month, or in the month
    after it when the target month is too short for the day. *)
Lemma addDate_monthIndex (d : Date) (years months : Z) (eom : bool) :
  wf d ->
  monthIndex d + 12 * years + months
  <= monthIndex (addDate d years months 0 eom)
  <= monthIndex d + 12 * years + months + 1.
Proof.
  intros Hwf. unfold addDate. destruct (eom && isEOM d).
  - destruct (lastDay_spec (year d + years) (month d + months))
      as (_ & Hi & _). rewrite Hi. unfold monthIndex. lia.
  - set (r := fromFields _ _ _).
    assert (Hr : wf r) by apply fromFields_wf.
    assert (E : dayNumber r
                = firstDay (monthIndex d + 12 * years + months) + day d - 1).
    { unfold r. rewrite fromFields_dayNumber, MakeDay_firstDay.
      unfold monthIndex. f_equal. f_equal. f_equal. - lia. - lia. }
    set (t := monthIndex d + 12 * years + months) in *.
    pose proof (monthIndex_bracket r t (t + 2) Hr) as B.
    pose proof (firstDay_le t (t + 2)).
    destruct Hwf as [_ Hd]. pose proof (daysInMonth_bounds (year d) (month d)).
    lia.
Qed.

(** With the flag set, a month end is shifted to a month end of exactly
    the target month. *)
Lemma addDate_eom (d : Date) (years months days : Z) :
  isEOM d = true ->
  let r := addDate d years months days true in
  isEOM r = true /\ monthIndex r = monthIndex d + 12 * years + months.
Proof.
  intros He r. unfold r, addDate. rewrite He. cbn [andb].
  destruct (lastDay_spec (year d + years) (month d + months))
    as (_ & Hi & Hl & _).
  split; [exact Hl |]. rewrite Hi. unfold monthIndex. lia.
Qed.

(** A day every month has is kept by a shift of whole months. *)
Lemma addDate_small_day (d : Date) (years months : Z) :
  wf d -> day d <= 28 ->
  let r := addDate d years months 0 false in
  day r = day d /\ monthIndex r = monthIndex d + 12 * years + months.
Proof.
  intros Hwf Hd r. unfold r, addDate. cbn [andb].
  set (y := year d + years). set (m := month d + months).
  assert (Hx : wf (mkDate (y + m / 12) (m mod 12) (day d))).
  { split; cbn [year month day].
    - pose proof (Z.mod_pos_bound m 12). lia.
    - destruct Hwf as [_ Hd1].
      pose proof (daysInMonth_bounds (y + m / 12) (m mod 12)). lia. }
  assert (E : fromFields y m (day d + 0)
              = mkDate (y + m / 12) (m mod 12) (day d)).
  { apply wf_eq_of_dayNumber; [apply fromFields_wf | exact Hx |].
    rewrite fromFields_dayNumber, (MakeDay_norm y m).
    unfold dayNumber; cbn [year month day]. f_equal. lia. }
  rewrite E. cbn [day]. split; [reflexivity |].
  unfold monthIndex; cbn [year month]. unfold y, m.
  Z.div_mod_to_equations. lia.
Qed.

(** The calendar order seen through the fields. *)
Lemma dayNumber_le_fields (a b : Date) :
  wf a -> wf b -> dayNumber b <= dayNumber a ->
  monthIndex b < monthIndex a
  \/ (year b = year a /\ month b = month a /\ day b <= day a).
Proof.
  intros Ha Hb Hle.
  pose proof (dayNumber_le_monthIndex b a Hb Ha Hle) as Hi.
  destruct (Z.eq_dec (monthIndex b) (monthIndex a)) as [E | NE]; [right | lia].
  rewrite !dayNumber_firstDay, E in Hle.
  destruct Ha as [Hma _], Hb as [Hmb _].
  destruct (monthIndex_div_mod a Hma) as [Hya Hmoa].
  destruct (monthIndex_div_mod b Hmb) as [Hyb Hmob].
  rewrite E in Hyb, Hmob. lia.
Qed.

End DateFacts.

(** ** The day-count helper *)

Module DayCountFacts.
Import DateFacts.

(** The 30/360 count is never positive towards an earlier or equal
    date. *)
Lemma days360US_nonpos (a b : Date) :
  wf a -> wf b -> dayNumber b <= dayNumber a -> days360US a b <= 0.
Proof.
  intros Ha Hb Hle.
  pose proof (dayNumber_le_fields a b Ha Hb Hle) as Hf.
  destruct Ha as [Hma Hda], Hb as [Hmb Hdb].
  pose proof (daysInMonth_bounds (year a) (month a)).
  pose proof (daysInMonth_bounds (year b) (month b)).
  unfold days360US, isEOM, monthIndex in *.
  destruct Hf as [Hlt | (Ey & Em & Ed)].
  - repeat match goal with
           | |- context [if ?c then _ else _] => destruct c eqn:?
           end;
    rewrite ?andb_true_iff, ?andb_false_iff, ?Z.eqb_eq, ?Z.eqb_neq,
      ?Z.leb_le, ?Z.leb_gt in *; lia.
  - rewrite Ey, Em in *.
    repeat match goal with
           | |- context [if ?c then _ else _] => destruct c eqn:?
           end;
    rewrite ?andb_true_iff, ?andb_false_iff, ?Z.eqb_eq, ?Z.eqb_neq,
      ?Z.leb_le, ?Z.leb_gt in *; lia.
Qed.

Lemma daysBetween_default_nonpos (a b : Date) :
  wf a -> wf b -> valueOf b <= valueOf a -> daysBetween a b None <= 0.
Proof.
  intros Ha Hb Hle. apply days360US_nonpos; try assumption.
  apply valueOf_le_iff; exact Hle.
Qed.

Lemma daysBetween_default_pos (a b : Date) :
  wf a -> wf b -> 0 < daysBetween a b None -> valueOf a < valueOf b.
Proof.
  intros Ha Hb Hpos.
  destruct (Z_lt_le_dec (valueOf a) (valueOf b)) as [| Hle]; [assumption |].
  pose proof (daysBetween_default_nonpos a b Ha Hb Hle). lia.
Qed.

End DayCountFacts.

(** ** The validator *)

Module ValidatorFacts.
Import DateFacts DayCountFacts.

Lemma validFrequency_iff (n : Z) :
  validFrequency (JNumber n) = true <-> In n [1; 2; 4].
Proof.
  cbn. rewrite !orb_true_iff, !Z.eqb_eq. intuition lia.
Qed.

Lemma validBasis_iff (n : Z) :
  validBasis (JNumber n) = true <-> In n [0; 1; 2; 3; 4].
Proof.
  cbn. rewrite !orb_true_iff, !Z.eqb_eq. intuition lia.
Qed.

(** On date and number arguments the validator accepts exactly the valid
    inputs, whatever the calling function. *)
Lemma argsValidator_accepts (funcName : string) (s m : Date) (f b : Z) :
  In f [1; 2; 4] -> In b [0; 1; 2; 3; 4] -> 0 < daysBetween s m None ->
  argsValidator funcName (JDate (Some s)) (JDate (Some m))
    (JNumber f) (JNumber b) = Ret true.
Proof.
  intros Hf Hb Hd. unfold argsValidator. cbn [hasRequiredArgs forallb validDate
    andb negb dateOf].
  apply validFrequency_iff in Hf. apply validBasis_iff in Hb.
  rewrite Hf, Hb. cbn [negb].
  destruct (daysBetween s m None <=? 0) eqn:E; [| reflexivity].
  apply Z.leb_le in E. lia.
Qed.

Lemma ValidInput_accepts (funcName : string) (s m : Date) (f b : Z) :
  ValidInput s m f b ->
  argsValidator funcName (JDate (Some s)) (JDate (Some m))
    (JNumber f) (JNumber b) = Ret true.
Proof.
  intros (_ & _ & Hf & Hb & Hd). now apply argsValidator_accepts.
Qed.

Lemma ValidInput_before (s m : Date) (f b : Z) :
  ValidInput s m f b -> valueOf s < valueOf m.
Proof.
  intros (Hs & Hm & _ & _ & Hd). now apply daysBetween_default_pos.
Qed.

End ValidatorFacts.

(** ** The stepping loops *)

Module LoopFacts.
Import DateFacts DayCountFacts ValidatorFacts.

Lemma period_cases (f : Z) :
  In f [1; 2; 4] ->
  (f = 1 /\ 12 / f = 12 /\ -12 / f = -12)
  \/ (f = 2 /\ 12 / f = 6 /\ -12 / f = -6)
  \/ (f = 4 /\ 12 / f = 3 /\ -12 / f = -3).
Proof.
  cbn. intros [<- | [<- | [<- | []]]]; cbn; intuition lia.
Qed.

Lemma pcd_step_wf (f : Z) (eom : bool) (d : Date) : wf (pcd_step f eom d).
Proof. apply addDate_wf. Qed.

Lemma ncd_step_wf (f : Z) (d : Date) : wf (ncd_step f d).
Proof. apply addDate_wf. Qed.

(** A backward step moves at least two months back, a forward step at
    least three months on. *)
Lemma pcd_step_monthIndex (f : Z) (eom : bool) (d : Date) :
  In f [1; 2; 4] -> wf d ->
  monthIndex (pcd_step f eom d) <= monthIndex d - 2.
Proof.
  intros Hf Hwf. unfold pcd_step.
  pose proof (addDate_monthIndex d 0 (-12 / f) eom Hwf).
  destruct (period_cases f Hf) as [(_ & _ & E) | [(_ & _ & E) | (_ & _ & E)]];
    rewrite E in *; lia.
Qed.

Lemma ncd_step_monthIndex (f : Z) (d : Date) :
  In f [1; 2; 4] -> wf d ->
  monthIndex d + 3 <= monthIndex (ncd_step f d).
Proof.
  intros Hf Hwf. unfold ncd_step.
  pose proof (addDate_monthIndex d 0 (12 / f) false Hwf).
  destruct (period_cases f Hf) as [(_ & E & _) | [(_ & E & _) | (_ & E & _)]];
    rewrite E in *; lia.
Qed.

(** What the backward loop returns: the first date of the stepped
    sequence that is not after settlement. *)
Lemma couppcd_loop_ret (fuel : nat) :
  forall s d f eom r,
  couppcd_loop fuel s d f eom = Ret r ->
  exists k : nat,
    (k <= fuel)%nat /\ r = Nat.iter k (pcd_step f eom) d
    /\ valueOf r <= valueOf s
    /\ forall j : nat, (j < k)%nat ->
         valueOf s < valueOf (Nat.iter j (pcd_step f eom) d).
Proof.
  induction fuel as [| n IH]; intros s d f eom r H; cbn [couppcd_loop] in H.
  - destruct (valueOf s <? valueOf d) eqn:E; [discriminate |].
    injection H as <-. apply Z.ltb_ge in E.
    exists 0%nat. cbn [Nat.iter nat_rect].
    split; [lia | split; [reflexivity | split; [lia | intros j Hj; lia]]].
  - destruct (valueOf s <? valueOf d) eqn:E.
    + apply Z.ltb_lt in E.
      destruct (IH _ _ _ _ _ H) as (k & Hk & Hr & Hle & Hlt).
      exists (S k). split; [lia | split; [| split; [exact Hle |]]].
      * rewrite Hr. symmetry. apply Nat.iter_succ_r.
      * intros [| j] Hj; [exact E |].
        rewrite Nat.iter_succ_r. apply Hlt. lia.
    + injection H as <-. apply Z.ltb_ge in E.
      exists 0%nat. cbn [Nat.iter nat_rect].
    split; [lia | split; [reflexivity | split; [lia | intros j Hj; lia]]].
Qed.

Lemma couppcd_loop_more (fuel : nat) :
  forall s d f eom r,
  couppcd_loop fuel s d f eom = Ret r ->
  forall fuel', (fuel <= fuel')%nat -> couppcd_loop fuel' s d f eom = Ret r.
Proof.
  induction fuel as [| n IH]; intros s d f eom r H fuel' Hle;
    cbn [couppcd_loop] in H.
  - destruct fuel'; cbn [couppcd_loop];
      destruct (valueOf s <? valueOf d); try discriminate; exact H.
  - destruct fuel' as [| n']; [lia |]. cbn [couppcd_loop].
    destruct (valueOf s <? valueOf d); [| exact H].
    apply (IH _ _ _ _ _ H). lia.
Qed.

(** The backward loop ends: each step leaves at least two months behind. *)
Lemma couppcd_loop_terminates (fuel : nat) :
  forall s d f eom,
  In f [1; 2; 4] -> wf s -> wf d ->
  monthIndex d - monthIndex s < 2 * Z.of_nat fuel ->
  exists r, couppcd_loop fuel s d f eom = Ret r.
Proof.
  induction fuel as [| n IH]; intros s d f eom Hf Hs Hd Hm;
    cbn [couppcd_loop]; destruct (valueOf s <? valueOf d) eqn:E;
    try (eexists; reflexivity); apply Z.ltb_lt in E;
    apply valueOf_lt_iff in E;
    pose proof (dayNumber_le_monthIndex s d Hs Hd ltac:(lia)) as Hi.
  - lia.
  - apply IH; try assumption; [apply addDate_wf |].
    pose proof (pcd_step_monthIndex f eom d Hf Hd) as Hstep.
    unfold pcd_step in Hstep. lia.
Qed.

Lemma coupncd_loop_ret (fuel : nat) :
  forall s d f r,
  Unclipped.ncd_loop fuel s d f = Ret r ->
  valueOf s < valueOf r
  /\ exists k : nat, (k <= fuel)%nat /\ r = Nat.iter k (ncd_step f) d.
Proof.
  induction fuel as [| n IH]; intros s d f r H;
    cbn [Unclipped.ncd_loop] in H;
    rewrite Z.geb_leb in H.
  - destruct (valueOf d <=? valueOf s) eqn:E; [discriminate |].
    injection H as <-. apply Z.leb_gt in E. split; [exact E |].
    exists 0%nat. cbn. split; [lia | reflexivity].
  - destruct (valueOf d <=? valueOf s) eqn:E.
    + destruct (IH _ _ _ _ H) as (Hlt & k & Hk & Hr).
      split; [exact Hlt |]. exists (S k). split; [lia |].
      rewrite Hr. symmetry. apply Nat.iter_succ_r.
    + injection H as <-. apply Z.leb_gt in E. split; [exact E |].
      exists 0%nat. cbn. split; [lia | reflexivity].
Qed.

Lemma coupncd_loop_more (fuel : nat) :
  forall s d f r,
  Unclipped.ncd_loop fuel s d f = Ret r ->
  forall fuel', (fuel <= fuel')%nat ->
    Unclipped.ncd_loop fuel' s d f = Ret r.
Proof.
  induction fuel as [| n IH]; intros s d f r H fuel' Hle;
    cbn [Unclipped.ncd_loop] in H.
  - destruct fuel'; cbn [Unclipped.ncd_loop];
      destruct (valueOf s >=? valueOf d); try discriminate; exact H.
  - destruct fuel' as [| n']; [lia |]. cbn [Unclipped.ncd_loop].
    destruct (valueOf s >=? valueOf d); [| exact H].
    apply (IH _ _ _ _ H). lia.
Qed.

(** The forward loop ends: each step gains at least three months. *)
Lemma coupncd_loop_terminates (fuel : nat) :
  forall s d f,
  In f [1; 2; 4] -> wf s -> wf d ->
  monthIndex s - monthIndex d < 3 * Z.of_nat fuel ->
  exists r, Unclipped.ncd_loop fuel s d f = Ret r.
Proof.
  induction fuel as [| n IH]; intros s d f Hf Hs Hd Hm;
    cbn [Unclipped.ncd_loop]; rewrite Z.geb_leb;
    destruct (valueOf d <=? valueOf s) eqn:E;
    try (eexists; reflexivity); apply Z.leb_le in E;
    apply valueOf_le_iff in E;
    pose proof (dayNumber_le_monthIndex d s Hd Hs E) as Hi.
  - lia.
  - apply IH; try assumption; [apply addDate_wf |].
    pose proof (ncd_step_monthIndex f d Hf Hd) as Hstep.
    unfold ncd_step in Hstep. lia.
Qed.

End LoopFacts.

(** ** The exported date functions on valid inputs *)

Module CouponFacts.
Import DateFacts DayCountFacts ValidatorFacts LoopFacts.

Lemma coupncd_start_wf (s m : Date) : wf (Unclipped.ncd_start s m).
Proof.
  unfold Unclipped.ncd_start, splitDate.
  set (d0 := Unclipped.new_date _ _ _).
  assert (H0 : wf d0) by apply newDate_wf.
  set (d1 := if negb _ then _ else _).
  assert (H1 : wf d1) by (unfold d1; destruct (negb _);
    [apply setUTCDate_wf | exact H0]).
  destruct (valueOf s <? valueOf d1); [apply addDate_wf | exact H1].
Qed.

(** The closing day correction never moves the date back. *)
Lemma coupncd_finish_ge (m d : Date) :
  wf d -> dayNumber d <= dayNumber (Unclipped.ncd_finish m d).
Proof.
  intros Hd. unfold Unclipped.ncd_finish, splitDate.
  set (d' := Unclipped.set_date d (Z.max (day d) (day m))).
  assert (Hd' : wf d') by apply setUTCDate_wf.
  assert (Hle : dayNumber d <= dayNumber d')
    by (unfold d'; rewrite setUTCDate_dayNumber; lia).
  destruct (month d =? month d') eqn:E; cbn [negb]; [exact Hle |].
  apply Z.eqb_neq in E. rewrite setUTCDate_dayNumber.
  pose proof (dayNumber_le_monthIndex d d' Hd Hd' Hle) as Hi.
  assert (Hne : monthIndex d <> monthIndex d').
  { intros Heq. destruct Hd as [Hm _], Hd' as [Hm' _].
    destruct (monthIndex_div_mod d Hm) as [_ E1].
    destruct (monthIndex_div_mod d' Hm') as [_ E2]. congruence. }
  pose proof (dayNumber_in_month d Hd).
  pose proof (firstDay_le (monthIndex d + 1) (monthIndex d')).
  rewrite (dayNumber_firstDay d'). lia.
Qed.

Lemma coupncd_finish_wf (m d : Date) :
  wf d -> wf (Unclipped.ncd_finish m d).
Proof.
  intros Hd. unfold Unclipped.ncd_finish, splitDate.
  destruct (negb _); apply setUTCDate_wf.
Qed.

Lemma iter_pcd_step_wf (f : Z) (eom : bool) (d : Date) (k : nat) :
  wf d -> wf (Nat.iter k (pcd_step f eom) d).
Proof.
  intros Hd. destruct k; [exact Hd |]. cbn [Nat.iter nat_rect].
  apply pcd_step_wf.
Qed.

Lemma iter_ncd_step_wf (f : Z) (d : Date) (k : nat) :
  wf d -> wf (Nat.iter k (ncd_step f) d).
Proof.
  intros Hd. destruct k; [exact Hd |]. cbn [Nat.iter nat_rect].
  apply ncd_step_wf.
Qed.

Lemma monthIndex_lower (d : Date) (i : Z) :
  wf d -> firstDay i <= dayNumber d -> i <= monthIndex d.
Proof.
  intros Hd Hle. pose proof (dayNumber_in_month d Hd).
  apply (monthIndex_bracket d i (monthIndex d + 1) Hd). lia.
Qed.

(** The forward loop of [coupncd] starts no more than 24 months before
    the month of settlement. *)
Lemma coupncd_start_monthIndex (s m : Date) :
  wf s -> wf m -> monthIndex s - monthIndex (Unclipped.ncd_start s m) <= 24.
Proof.
  intros Hs Hm. unfold Unclipped.ncd_start, splitDate.
  set (d0 := Unclipped.new_date _ _ _).
  assert (H0 : wf d0) by apply newDate_wf.
  assert (I0 : 12 * year s <= monthIndex d0).
  { apply monthIndex_lower; [exact H0 |]. unfold d0, Unclipped.new_date.
    rewrite fromFields_dayNumber, MakeDay_firstDay.
    destruct Hm as [Hmm Hmd].
    set (yr := if (0 <=? year s) && (year s <=? 99) then 1900 + year s
               else year s).
    assert (year s <= yr).
    { unfold yr. destruct ((0 <=? year s) && (year s <=? 99)) eqn:E; [| lia].
      apply andb_true_iff in E. rewrite !Z.leb_le in E. lia. }
    pose proof (firstDay_le (12 * year s) (12 * yr + (month m + 1 - 1))).
    lia. }
  set (d1 := if negb _ then _ else _).
  assert (H1 : wf d1) by (unfold d1; destruct (negb _);
    [apply setUTCDate_wf | exact H0]).
  assert (I1 : monthIndex d0 - 1 <= monthIndex d1).
  { unfold d1. destruct (negb _); [| lia].
    apply monthIndex_lower; [apply setUTCDate_wf |].
    rewrite setUTCDate_dayNumber, dayNumber_firstDay.
    pose proof (firstDay_step_bounds (monthIndex d0 - 1)) as B.
    replace (monthIndex d0 - 1 + 1) with (monthIndex d0) in B by lia. lia. }
  assert (Is : monthIndex s <= 12 * year s + 11)
    by (destruct Hs as [Hsm _]; unfold monthIndex; lia).
  destruct (valueOf s <? valueOf d1); [| lia].
  pose proof (addDate_monthIndex d1 (-1) 0 (isEOM m) H1). lia.
Qed.

Lemma couppcd_loop_det (s d : Date) (f : Z) (eom : bool) (n n' : nat)
    (r r' : Date) :
  couppcd_loop n s d f eom = Ret r -> couppcd_loop n' s d f eom = Ret r' ->
  r = r'.
Proof.
  intros H H'. destruct (Nat.le_ge_cases n n') as [L | L].
  - rewrite (couppcd_loop_more _ _ _ _ _ _ H n' L) in H'. congruence.
  - rewrite (couppcd_loop_more _ _ _ _ _ _ H' n L) in H. congruence.
Qed.

Lemma coupncd_loop_det (s d : Date) (f : Z) (n n' : nat) (r r' : Date) :
  Unclipped.ncd_loop n s d f = Ret r ->
  Unclipped.ncd_loop n' s d f = Ret r' -> r = r'.
Proof.
  intros H H'. destruct (Nat.le_ge_cases n n') as [L | L].
  - rewrite (coupncd_loop_more _ _ _ _ _ H n' L) in H'. congruence.
  - rewrite (coupncd_loop_more _ _ _ _ _ H' n L) in H. congruence.
Qed.

Lemma coupon_fuel_enough (s m : Date) (fuel : nat) :
  (coupon_fuel s m <= fuel)%nat ->
  (9 <= fuel)%nat /\ monthIndex m - monthIndex s < 2 * Z.of_nat fuel.
Proof. unfold coupon_fuel. lia. Qed.

(** *** [coupncd] and its computation on calendar dates *)

Lemma TimeClip_cases (d : Date) : TimeClip d = Some d \/ TimeClip d = None.
Proof. unfold TimeClip. destruct (_ <=? _); auto. Qed.

Lemma TimeClip_in_range (d : Date) :
  -100000000 <= dayNumber d <= 100000000 -> TimeClip d = Some d.
Proof.
  intros H. unfold TimeClip. rewrite valueOf_dayNumber.
  unfold msPerDay, maxTime.
  destruct (Z.leb_spec (Z.abs (86400000 * dayNumber d)) 8640000000000000);
    [reflexivity | lia].
Qed.

(** The months that lie wholly within the range of time values. *)
Lemma fromFields_in_range (y m dt : Z) :
  12 * -271820 <= 12 * y + m < 12 * 275760 -> 0 <= dt <= 32 ->
  TimeClip (fromFields y m dt) = Some (fromFields y m dt).
Proof.
  intros Hi Hd. apply TimeClip_in_range.
  rewrite fromFields_dayNumber, MakeDay_firstDay.
  pose proof (firstDay_le (12 * -271820) (12 * y + m)) as L.
  pose proof (firstDay_lt (12 * y + m) (12 * 275760)) as U.
  assert (E1 : firstDay (12 * -271820) = -99999744)
    by (vm_compute; reflexivity).
  assert (E2 : firstDay (12 * 275760) = 99999744) by (vm_compute; reflexivity).
  lia.
Qed.

Lemma coupncd_loop_invalid (fuel : nat) (s : Date) (f : Z) :
  coupncd_loop fuel s None f = Ret None.
Proof. destruct fuel; reflexivity. Qed.

(** On a valid date the loop of [coupncd] is the loop on calendar
    dates. *)
Lemma coupncd_loop_valid (fuel : nat) :
  forall (s d : Date) (f : Z),
  coupncd_loop fuel s (Some d) f
  = bind (Unclipped.ncd_loop fuel s d f) (fun r => Ret (Some r)).
Proof.
  induction fuel as [| n IH]; intros s d f;
    cbn [coupncd_loop Unclipped.ncd_loop toNumber validObj num_ge
         addDateObj];
    destruct (valueOf s >=? valueOf d); try reflexivity.
  apply IH.
Qed.

(** The object [coupncd] enters its loop with is Invalid Date or the
    date of the computation on calendar dates. *)
Lemma coupncd_start_cases (s m : Date) :
  coupncd_start s m = Some (Unclipped.ncd_start s m)
  \/ coupncd_start s m = None.
Proof.
  unfold coupncd_start, Unclipped.ncd_start, splitDate, newDate,
    Unclipped.new_date, validObj.
  cbn [getUTCFullYear].
  set (d0 := fromFields _ _ _).
  destruct (TimeClip_cases d0) as [E | E]; rewrite E;
    cbn [getUTCMonth strict_neq setUTCDate toNumber num_lt]; [| now right].
  destruct (negb (month m + 1 =? month d0)).
  - unfold Unclipped.set_date. set (d1 := fromFields _ _ _).
    destruct (TimeClip_cases d1) as [E1 | E1]; rewrite E1;
      cbn [toNumber num_lt]; [| now right].
    left. destruct (valueOf s <? valueOf d1); reflexivity.
  - cbn [toNumber num_lt]. left.
    destruct (valueOf s <? valueOf d0); reflexivity.
Qed.

(** So is the object it returns. *)
Lemma coupncd_finish_cases (m d : Date) :
  coupncd_finish m (Some d) = Some (Unclipped.ncd_finish m d)
  \/ coupncd_finish m (Some d) = None.
Proof.
  unfold coupncd_finish, Unclipped.ncd_finish, splitDate.
  cbn [getUTCMonth getUTCDate Math_max setUTCDate].
  unfold Unclipped.set_date.
  set (d' := fromFields _ _ _).
  destruct (TimeClip_cases d') as [E | E]; rewrite E;
    cbn [getUTCMonth strict_neq setUTCDate]; [| now right].
  destruct (negb (month d =? month d')); [| now left].
  set (r := fromFields _ _ _).
  destruct (TimeClip_cases r) as [E1 | E1]; rewrite E1; auto.
Qed.

Lemma coupncd_finish_invalid (m : Date) : coupncd_finish m None = None.
Proof. reflexivity. Qed.

Lemma fromFields_monthIndex (y m dt : Z) :
  0 <= dt <= 32 ->
  12 * y + m - 1 <= monthIndex (fromFields y m dt) <= 12 * y + m + 1.
Proof.
  intros Hd.
  assert (H : 12 * y + m - 1 <= monthIndex (fromFields y m dt)
              < 12 * y + m + 2); [| lia].
  apply monthIndex_bracket; [apply fromFields_wf |].
  rewrite fromFields_dayNumber, MakeDay_firstDay.
  pose proof (firstDay_lt (12 * y + m - 1) (12 * y + m)).
  pose proof (firstDay_lt (12 * y + m) (12 * y + m + 1)).
  pose proof (firstDay_lt (12 * y + m + 1) (12 * y + m + 2)).
  lia.
Qed.

(** The year the constructor takes for the year of settlement. *)
Lemma constructor_year (y : Z) :
  -271818 <= y <= 275757 ->
  -271818 <= (if (0 <=? y) && (y <=? 99) then 1900 + y else y) <= 275757.
Proof.
  intros H. destruct ((0 <=? y) && (y <=? 99)) eqn:E; [| exact H].
  apply andb_true_iff in E. rewrite !Z.leb_le in E. lia.
Qed.

(** For a settlement in [InTimeRange] no object [coupncd] builds before
    its loop is Invalid Date. *)
Lemma coupncd_start_in_range (s m : Date) :
  wf m -> InTimeRange s ->
  coupncd_start s m = Some (Unclipped.ncd_start s m)
  /\ monthIndex (Unclipped.ncd_start s m) <= 12 * 275757 + 12.
Proof.
  intros [Hmm Hmd] Hr.
  pose proof (daysInMonth_bounds (year m) (month m)) as Bm.
  pose proof (constructor_year (year s) Hr) as Hy.
  unfold coupncd_start, Unclipped.ncd_start, splitDate, newDate,
    Unclipped.new_date, validObj.
  cbn [getUTCFullYear].
  set (yr := if (0 <=? year s) && (year s <=? 99) then 1900 + year s
             else year s) in *.
  pose proof (fromFields_monthIndex yr (month m + 1 - 1) (day m)) as I0.
  rewrite fromFields_in_range by lia.
  set (d0 := fromFields _ _ _) in *.
  assert (H0 : wf d0) by apply fromFields_wf.
  cbn [getUTCMonth strict_neq setUTCDate toNumber num_lt].
  unfold Unclipped.set_date.
  assert (I0' : 12 * yr + month m <= monthIndex d0).
  { apply monthIndex_lower; [exact H0 |]. unfold d0.
    rewrite fromFields_dayNumber, MakeDay_firstDay.
    replace (12 * yr + (month m + 1 - 1)) with (12 * yr + month m) by lia.
    lia. }
  assert (A : forall d1 : Date, wf d1 -> monthIndex d1 <= 12 * yr + 12 ->
            monthIndex (if valueOf s <? valueOf d1
                        then addDate d1 (-1) 0 0 (isEOM m) else d1)
            <= 12 * 275757 + 12).
  { intros d1 H1 I1. destruct (valueOf s <? valueOf d1); [| lia].
    pose proof (addDate_monthIndex d1 (-1) 0 (isEOM m) H1). lia. }
  destruct (negb (month m + 1 =? month d0)).
  - pose proof (fromFields_monthIndex (year d0) (month d0) 0) as I1.
    fold (monthIndex d0) in I1.
    rewrite fromFields_in_range by (fold (monthIndex d0); lia).
    set (d1 := fromFields (year d0) (month d0) 0) in *.
    cbn [toNumber num_lt addDateObj]. split.
    + destruct (valueOf s <? valueOf d1); reflexivity.
    + apply A; [apply fromFields_wf |].
      assert (monthIndex d1 <= monthIndex d0); [| lia].
      apply (dayNumber_le_monthIndex d1 d0); [apply fromFields_wf | exact H0 |].
      unfold d1. rewrite fromFields_dayNumber, MakeDay_firstDay.
      fold (monthIndex d0). rewrite (dayNumber_firstDay d0).
      destruct H0 as [_ ?]. lia.
  - cbn [toNumber num_lt addDateObj]. split.
    + destruct (valueOf s <? valueOf d0); reflexivity.
    + apply A; [exact H0 | lia].
Qed.

(** The date the loop on calendar dates returns is the one it was
    entered with, or lies at most 13 months after the month of
    settlement; it never lies before the date it was entered with. *)
Lemma coupncd_loop_monthIndex (fuel : nat) :
  forall s d f r,
  In f [1; 2; 4] -> wf s -> wf d ->
  Unclipped.ncd_loop fuel s d f = Ret r ->
  wf r /\ monthIndex d <= monthIndex r
  /\ (r = d \/ monthIndex r <= monthIndex s + 13).
Proof.
  induction fuel as [| n IH]; intros s d f r Hf Hs Hd H;
    cbn [Unclipped.ncd_loop] in H;
    destruct (valueOf s >=? valueOf d) eqn:G; try discriminate;
    try (injection H as <-; split; [exact Hd | split; [lia | now left]]).
  rewrite Z.geb_leb in G. apply Z.leb_le in G.
  fold (ncd_step f d) in H.
  pose proof (ncd_step_wf f d) as Hw.
  pose proof (ncd_step_monthIndex f d Hf Hd) as Hlo.
  destruct (IH _ _ _ _ Hf Hs Hw H) as (Hr & Hge & Hup).
  split; [exact Hr | split; [lia |]]. right.
  destruct Hup as [-> | Hup]; [| exact Hup].
  apply valueOf_le_iff in G.
  pose proof (dayNumber_le_monthIndex d s Hd Hs G).
  pose proof (addDate_monthIndex d 0 (12 / f) false Hd) as Hs1.
  fold (ncd_step f d) in Hs1.
  assert (12 / f <= 12)
    by (destruct (period_cases f Hf)
          as [(_ & E & _) | [(_ & E & _) | (_ & E & _)]]; lia).
  lia.
Qed.

(** No object [coupncd] builds after its loop is Invalid Date when the
    loop ends in a month that lies, with the month after it, wholly
    within the range of time values. *)
Lemma coupncd_finish_in_range (m d : Date) :
  wf m -> wf d ->
  12 * -271820 <= monthIndex d -> monthIndex d + 1 < 12 * 275760 ->
  coupncd_finish m (Some d) = Some (Unclipped.ncd_finish m d).
Proof.
  intros [_ Hmd] [_ Hdd] Lo Hi.
  pose proof (daysInMonth_bounds (year m) (month m)).
  pose proof (daysInMonth_bounds (year d) (month d)).
  unfold coupncd_finish, Unclipped.ncd_finish, splitDate.
  cbn [getUTCMonth getUTCDate Math_max setUTCDate].
  unfold Unclipped.set_date.
  pose proof (fromFields_monthIndex (year d) (month d)
                (Z.max (day d) (day m))) as I.
  fold (monthIndex d) in I.
  rewrite fromFields_in_range by (fold (monthIndex d); lia).
  set (d' := fromFields (year d) (month d) (Z.max (day d) (day m))) in *.
  cbn [getUTCMonth strict_neq setUTCDate].
  destruct (negb (month d =? month d')); [| reflexivity].
  assert (Lo' : monthIndex d <= monthIndex d').
  { apply monthIndex_lower; [apply fromFields_wf |]. unfold d'.
    rewrite fromFields_dayNumber, MakeDay_firstDay.
    fold (monthIndex d). lia. }
  rewrite fromFields_in_range by (fold (monthIndex d'); lia).
  reflexivity.
Qed.

(** *** On a valid input *)

Section OnValidInput.

Variables (s m : Date) (f b : Z).
Hypothesis Hv : ValidInput s m f b.

Let settlement : JsVal := JDate (Some s).
Let maturity : JsVal := JDate (Some m).
Let frequency : JsVal := JNumber f.
Let basis : JsVal := JNumber b.

(** The exported functions past their validator. *)
Lemma couppcd_valid (fuel : nat) :
  couppcd fuel settlement maturity frequency basis
  = couppcd_loop fuel s m f (isEOM m).
Proof.
  unfold couppcd, settlement, maturity, frequency, basis. cbn [orDefault].
  rewrite (ValidInput_accepts _ s m f b Hv). reflexivity.
Qed.

Lemma coupncd_valid (fuel : nat) :
  coupncd fuel settlement maturity frequency basis
  = bind (coupncd_loop fuel s (coupncd_start s m) f)
      (fun d => Ret (coupncd_finish m d)).
Proof.
  unfold coupncd, settlement, maturity, frequency, basis. cbn [orDefault].
  rewrite (ValidInput_accepts _ s m f b Hv). reflexivity.
Qed.

Lemma coupncd_unclipped_valid (fuel : nat) :
  Unclipped.ncd fuel settlement maturity frequency basis
  = bind (Unclipped.ncd_loop fuel s (Unclipped.ncd_start s m) f)
      (fun d => Ret (Unclipped.ncd_finish m d)).
Proof.
  unfold Unclipped.ncd, settlement, maturity, frequency, basis.
  cbn [orDefault].
  rewrite (ValidInput_accepts _ s m f b Hv). reflexivity.
Qed.

Lemma coupdaybs_valid (fuel : nat) :
  coupdaybs fuel settlement maturity frequency basis
  = bind (couppcd fuel settlement maturity frequency basis)
      (fun pcd => Ret (daysBetween pcd s (Some b))).
Proof.
  unfold coupdaybs, settlement, maturity, frequency, basis. cbn [orDefault].
  rewrite (ValidInput_accepts _ s m f b Hv). reflexivity.
Qed.

Lemma coupdays_valid (fuel : nat) :
  coupdays fuel settlement maturity frequency basis
  = if b =? 1 then
      bind (couppcd fuel settlement maturity frequency basis) (fun pcd =>
      bind (coupncd fuel settlement maturity frequency basis) (fun ncd =>
      Ret (daysBetweenObj pcd ncd (Some b))))
    else Ret (Num (Math_round (inject_Z (getDaysInYear 0 b) / inject_Z f)%Q)).
Proof.
  unfold coupdays, settlement, maturity, frequency, basis. cbn [orDefault].
  rewrite (ValidInput_accepts _ s m f b Hv). reflexivity.
Qed.

Lemma coupdaysnc_valid (fuel : nat) :
  coupdaysnc fuel settlement maturity frequency basis
  = if b =? 0 then
      bind (coupdays fuel settlement maturity frequency basis) (fun days =>
      bind (coupdaybs fuel settlement maturity frequency basis) (fun daybs =>
      Ret (num_sub days daybs)))
    else
      bind (coupncd fuel settlement maturity frequency basis) (fun ncd =>
      Ret (daysBetweenObj s ncd (Some b))).
Proof.
  unfold coupdaysnc, settlement, maturity, frequency, basis. cbn [orDefault].
  rewrite (ValidInput_accepts _ s m f b Hv). reflexivity.
Qed.

Lemma coupnum_valid (fuel : nat) :
  coupnum fuel settlement maturity frequency basis
  = bind (couppcd fuel settlement maturity frequency basis)
      (fun pcd =>
         Ret (Qred (inject_Z ((monthIndex m - monthIndex pcd) * f)
                    / inject_Z 12)%Q)).
Proof.
  unfold coupnum, settlement, maturity, frequency, basis. cbn [orDefault].
  rewrite (ValidInput_accepts _ s m f b Hv). cbn [bind dateOf numberOf].
  destruct (couppcd fuel _ _ _ _) as [pcd | e |]; cbn [bind]; try reflexivity.
  unfold splitDate, monthIndex. do 4 f_equal. lia.
Qed.

(** Whatever the fuel, [couppcd] returns one date at most. *)
Lemma couppcd_det (n n' : nat) (r r' : Date) :
  couppcd n settlement maturity frequency basis = Ret r ->
  couppcd n' settlement maturity frequency basis = Ret r' ->
  r = r'.
Proof. rewrite !couppcd_valid. apply couppcd_loop_det. Qed.

(** [couppcd] returns a well-formed date not after settlement, as soon
    as the fuel covers half the months between settlement and
    maturity. *)
Lemma couppcd_returns :
  exists pcd,
    wf pcd /\ valueOf pcd <= valueOf s
    /\ forall fuel, monthIndex m - monthIndex s < 2 * Z.of_nat fuel ->
       couppcd fuel settlement maturity frequency basis = Ret pcd.
Proof.
  pose proof Hv as (Hs & Hm & Hf & _).
  destruct (couppcd_loop_terminates (coupon_fuel s m) s m f (isEOM m)
              Hf Hs Hm) as [r Hr].
  { unfold coupon_fuel. lia. }
  destruct (couppcd_loop_ret _ _ _ _ _ _ Hr) as (k & _ & Hk & Hle & _).
  exists r. split; [| split; [exact Hle |]].
  - rewrite Hk. now apply iter_pcd_step_wf.
  - intros fuel Hfuel. rewrite couppcd_valid.
    destruct (couppcd_loop_terminates fuel s m f (isEOM m) Hf Hs Hm Hfuel)
      as [r' Hr'].
    rewrite Hr'. f_equal. exact (couppcd_loop_det _ _ _ _ _ _ _ _ Hr' Hr).
Qed.

(** The computation of [coupncd] on calendar dates returns a
    well-formed date after settlement within nine iterations of its
    loop. *)
Lemma coupncd_unclipped_returns :
  exists ncd,
    wf ncd /\ valueOf s < valueOf ncd
    /\ forall fuel, (9 <= fuel)%nat ->
       Unclipped.ncd fuel settlement maturity frequency basis = Ret ncd.
Proof.
  pose proof Hv as (Hs & Hm & Hf & _).
  pose proof (coupncd_start_wf s m) as H0.
  pose proof (coupncd_start_monthIndex s m Hs Hm) as Hi.
  destruct (coupncd_loop_terminates 9 s (Unclipped.ncd_start s m) f
              Hf Hs H0) as [r Hr].
  { lia. }
  destruct (coupncd_loop_ret _ _ _ _ _ Hr) as (Hlt & k & _ & Hk).
  assert (Hwr : wf r) by (rewrite Hk; now apply iter_ncd_step_wf).
  exists (Unclipped.ncd_finish m r). split; [| split].
  - now apply coupncd_finish_wf.
  - pose proof (coupncd_finish_ge m r Hwr) as Hge.
    apply valueOf_lt_iff in Hlt. apply valueOf_lt_iff. lia.
  - intros fuel Hfuel. rewrite coupncd_unclipped_valid.
    rewrite (coupncd_loop_more _ _ _ _ _ Hr fuel Hfuel). reflexivity.
Qed.

(** Whatever the fuel, it returns one date at most. *)
Lemma coupncd_unclipped_det (n n' : nat) (r r' : Date) :
  Unclipped.ncd n settlement maturity frequency basis = Ret r ->
  Unclipped.ncd n' settlement maturity frequency basis = Ret r' ->
  r = r'.
Proof.
  rewrite !coupncd_unclipped_valid. intros H H'.
  destruct (Unclipped.ncd_loop n _ _ _) as [d | |] eqn:E;
    try discriminate.
  destruct (Unclipped.ncd_loop n' _ _ _) as [d' | |] eqn:E';
    try discriminate.
  cbn [bind] in H, H'. injection H as <-. injection H' as <-.
  f_equal. exact (coupncd_loop_det _ _ _ _ _ _ _ E E').
Qed.

(** A valid date returned by [coupncd] is the date of the computation
    on calendar dates. *)
Lemma coupncd_valid_date (fuel : nat) (x : Date) :
  coupncd fuel settlement maturity frequency basis = Ret (Some x) ->
  Unclipped.ncd fuel settlement maturity frequency basis = Ret x.
Proof.
  rewrite coupncd_valid, coupncd_unclipped_valid.
  destruct (coupncd_start_cases s m) as [E | E]; rewrite E.
  - rewrite coupncd_loop_valid.
    destruct (Unclipped.ncd_loop fuel s _ f) as [r | |]; cbn [bind];
      try discriminate.
    destruct (coupncd_finish_cases m r) as [E' | E']; rewrite E';
      intros H; [injection H as <-; reflexivity | discriminate].
  - rewrite coupncd_loop_invalid. cbn [bind]. discriminate.
Qed.

(** [coupncd] returns within nine iterations of its loop: one [Date]
    object, whatever the fuel. *)
Lemma coupncd_returns :
  exists ncd : DateObj,
    forall fuel, (9 <= fuel)%nat ->
    coupncd fuel settlement maturity frequency basis = Ret ncd.
Proof.
  pose proof Hv as (Hs & Hm & Hf & _).
  destruct (coupncd_start_cases s m) as [E | E].
  - pose proof (coupncd_start_wf s m) as H0.
    pose proof (coupncd_start_monthIndex s m Hs Hm) as Hi.
    destruct (coupncd_loop_terminates 9 s (Unclipped.ncd_start s m) f
                Hf Hs H0) as [r Hr].
    { lia. }
    exists (coupncd_finish m (Some r)). intros fuel Hfuel.
    rewrite coupncd_valid, E, coupncd_loop_valid.
    rewrite (coupncd_loop_more _ _ _ _ _ Hr fuel Hfuel). reflexivity.
  - exists None. intros fuel _.
    rewrite coupncd_valid, E, coupncd_loop_invalid. reflexivity.
Qed.

(** For a settlement in [InTimeRange], [coupncd] is its computation on
    calendar dates. *)
Lemma coupncd_in_range (fuel : nat) :
  InTimeRange s ->
  coupncd fuel settlement maturity frequency basis
  = bind (Unclipped.ncd fuel settlement maturity frequency basis)
      (fun x => Ret (Some x)).
Proof.
  intros Hr. pose proof Hv as (Hs & Hm & Hf & _).
  rewrite coupncd_valid, coupncd_unclipped_valid.
  destruct (coupncd_start_in_range s m Hm Hr) as [E U]. rewrite E.
  rewrite coupncd_loop_valid.
  pose proof (coupncd_start_wf s m) as H0.
  pose proof (coupncd_start_monthIndex s m Hs Hm) as Hi.
  destruct (Unclipped.ncd_loop fuel s _ f) as [r | e |] eqn:L;
    cbn [bind]; try reflexivity.
  destruct (coupncd_loop_monthIndex _ _ _ _ _ Hf Hs H0 L) as (Hw & Lo & Up).
  assert (Is : 12 * year s <= monthIndex s <= 12 * year s + 11)
    by (destruct Hs as [? _]; unfold monthIndex; lia).
  unfold InTimeRange in Hr.
  rewrite coupncd_finish_in_range; [reflexivity | exact Hm | exact Hw | lia |].
  destruct Up as [-> | Up]; lia.
Qed.

End OnValidInput.

End CouponFacts.

(** * The claims about the coupon schedule *)

Import DateFacts DayCountFacts ValidatorFacts LoopFacts CouponFacts.

(** Discharges [ValidInput] on concrete dates and numbers. *)
Ltac valid_input :=
  unfold ValidInput, wf; cbn; repeat split; try lia; auto.

(** C1, as the code has it.  For every valid input whose settlement lies
    in [InTimeRange], that is, whose settlement year is between -271818
    and 275757, [couppcd] returns a date less than or equal to settlement
    and [coupncd] returns a date strictly greater than settlement.  For
    every valid input, a valid date returned by [coupncd] is strictly
    greater than settlement. *)
Theorem coupon_dates_bracket_settlement (s m : Date) (f b : Z) :
  ValidInput s m f b ->
  (InTimeRange s ->
   exists pcd ncd : Date,
     valueOf pcd <= valueOf s < valueOf ncd
     /\ forall fuel, (coupon_fuel s m <= fuel)%nat ->
        couppcd fuel (JDate (Some s)) (JDate (Some m)) (JNumber f) (JNumber b)
        = Ret pcd
        /\ coupncd fuel (JDate (Some s)) (JDate (Some m)) (JNumber f)
             (JNumber b) = Ret ncd)
  /\ (forall fuel (ncd : Date),
       coupncd fuel (JDate (Some s)) (JDate (Some m)) (JNumber f) (JNumber b)
       = Ret ncd ->
       valueOf s < valueOf ncd).
Proof.
  intros Hv.
  destruct (couppcd_returns s m f b Hv) as (pcd & _ & Hle & Hp).
  destruct (coupncd_unclipped_returns s m f b Hv) as (ncd & _ & Hlt & Hn).
  split.
  - intros Hi. exists pcd, ncd. split; [lia |]. intros fuel Hfuel.
    apply coupon_fuel_enough in Hfuel as [H9 H2].
    split; [exact (Hp fuel H2) |].
    rewrite (coupncd_in_range s m f b Hv fuel Hi), (Hn fuel H9). reflexivity.
  - intros fuel x H. apply (coupncd_valid_date s m f b Hv) in H.
    rewrite (coupncd_unclipped_det s m f b Hv _ _ _ _ H (Hn 9%nat (le_n 9))).
    exact Hlt.
Qed.

Lemma coupon_dates_bracket_settlement_witness :
  ValidInput (mkDate 2023 0 15) (mkDate 2025 6 31) 2 0
  /\ InTimeRange (mkDate 2023 0 15)
  /\ exists pcd ncd : Date,
    valueOf pcd <= valueOf (mkDate 2023 0 15) < valueOf ncd
    /\ forall fuel,
       (coupon_fuel (mkDate 2023 0 15) (mkDate 2025 6 31) <= fuel)%nat ->
       couppcd fuel (JDate (Some (mkDate 2023 0 15)))
         (JDate (Some (mkDate 2025 6 31))) (JNumber 2) (JNumber 0) = Ret pcd
       /\ coupncd fuel (JDate (Some (mkDate 2023 0 15)))
         (JDate (Some (mkDate 2025 6 31))) (JNumber 2) (JNumber 0) = Ret ncd.
Proof.
  split; [valid_input |]. split; [unfold InTimeRange; cbn; lia |].
  apply (coupon_dates_bracket_settlement _ _ 2 0);
    [valid_input | unfold InTimeRange; cbn; lia].
Defined.

(** C1 as stated fails at the lower end of the range of time values.
    Settlement -271821-05-01 and maturity -271820-01-15 are valid dates,
    254 days apart on the 30/360 count of the validator.  The constructor
    is asked for -271821-01-15, a day before the first time value
    (-271821-04-20), so [d] is Invalid Date; every guard that follows is
    false on it or leaves it as it is, and [coupncd] returns Invalid
    Date, which is not greater than settlement. *)
Lemma coupncd_invalid_date_counterexample :
  ValidInput (mkDate (-271821) 4 1) (mkDate (-271820) 0 15) 2 0
  /\ TimeClip (mkDate (-271821) 4 1) = Some (mkDate (-271821) 4 1)
  /\ TimeClip (mkDate (-271820) 0 15) = Some (mkDate (-271820) 0 15)
  /\ newDate (-271821) 0 15 = InvalidDate
  /\ (forall fuel,
        coupncd fuel (JDate (Some (mkDate (-271821) 4 1)))
          (JDate (Some (mkDate (-271820) 0 15))) (JNumber 2) (JNumber 0)
        = Ret InvalidDate)
  /\ num_lt (toNumber (mkDate (-271821) 4 1)) (toNumber InvalidDate) = false
  /\ ~ (exists (fuel : nat) (ncd : Date),
          coupncd fuel (JDate (Some (mkDate (-271821) 4 1)))
            (JDate (Some (mkDate (-271820) 0 15))) (JNumber 2) (JNumber 0)
          = Ret ncd
          /\ valueOf (mkDate (-271821) 4 1) < valueOf ncd).
Proof.
  assert (Hv : ValidInput (mkDate (-271821) 4 1) (mkDate (-271820) 0 15) 2 0)
    by valid_input.
  assert (E : coupncd_start (mkDate (-271821) 4 1) (mkDate (-271820) 0 15)
              = None) by (vm_compute; reflexivity).
  assert (H : forall fuel,
            coupncd fuel (JDate (Some (mkDate (-271821) 4 1)))
              (JDate (Some (mkDate (-271820) 0 15))) (JNumber 2) (JNumber 0)
            = Ret InvalidDate).
  { intros fuel.
    rewrite (coupncd_valid _ _ 2 0 Hv fuel), E, coupncd_loop_invalid.
    reflexivity. }
  split; [exact Hv |]. split; [vm_compute; reflexivity |].
  split; [vm_compute; reflexivity |]. split; [vm_compute; reflexivity |].
  split; [exact H |]. split; [reflexivity |].
  intros (fuel & ncd & Hn & _). rewrite H in Hn. discriminate Hn.
Qed.

(** C8. For every valid input the backward loop of [couppcd] and the
    forward loop of [coupncd] end after finitely many steps: the first
    within half the number of months from settlement to maturity (plus
    one), the second within nine, so both functions return on validated
    inputs. *)
Theorem stepping_loops_terminate (s m : Date) (f b : Z) :
  ValidInput s m f b ->
  (exists d,
     forall fuel, monthIndex m - monthIndex s < 2 * Z.of_nat fuel ->
       couppcd_loop fuel s m f (isEOM m) = Ret d)
  /\ (exists d,
     forall fuel, (9 <= fuel)%nat ->
       coupncd_loop fuel s (coupncd_start s m) f = Ret d)
  /\ (forall fuel, (coupon_fuel s m <= fuel)%nat ->
       couppcd fuel (JDate (Some s)) (JDate (Some m)) (JNumber f) (JNumber b)
       <> OutOfFuel
       /\ coupncd fuel (JDate (Some s)) (JDate (Some m)) (JNumber f)
            (JNumber b) <> OutOfFuel).
Proof.
  intros Hv. pose proof Hv as (Hs & Hm & Hf & _).
  split; [| split].
  - destruct (couppcd_loop_terminates (coupon_fuel s m) s m f (isEOM m)
                Hf Hs Hm) as [r Hr].
    { unfold coupon_fuel. lia. }
    exists r. intros fuel Hfuel.
    destruct (couppcd_loop_terminates fuel s m f (isEOM m) Hf Hs Hm Hfuel)
      as [r' Hr'].
    rewrite Hr'. f_equal. exact (couppcd_loop_det _ _ _ _ _ _ _ _ Hr' Hr).
  - destruct (coupncd_start_cases s m) as [E | E]; rewrite E.
    + pose proof (coupncd_start_monthIndex s m Hs Hm) as Hi.
      destruct (coupncd_loop_terminates 9 s (Unclipped.ncd_start s m) f
                  Hf Hs (coupncd_start_wf s m)) as [r Hr].
      { lia. }
      exists (Some r). intros fuel Hfuel. rewrite coupncd_loop_valid.
      rewrite (coupncd_loop_more _ _ _ _ _ Hr fuel Hfuel). reflexivity.
    + exists None. intros fuel _. apply coupncd_loop_invalid.
  - intros fuel Hfuel. apply coupon_fuel_enough in Hfuel as [H9 H2].
    destruct (couppcd_returns s m f b Hv) as (pcd & _ & _ & Hp).
    destruct (coupncd_returns s m f b Hv) as (ncd & Hn).
    rewrite (Hp fuel H2), (Hn fuel H9). split; discriminate.
Qed.

Lemma stepping_loops_terminate_witness :
  ValidInput (mkDate 2023 0 15) (mkDate 2025 6 31) 2 0
  /\ (forall fuel,
        (coupon_fuel (mkDate 2023 0 15) (mkDate 2025 6 31) <= fuel)%nat ->
        couppcd fuel (JDate (Some (mkDate 2023 0 15)))
          (JDate (Some (mkDate 2025 6 31))) (JNumber 2) (JNumber 0)
        <> OutOfFuel
        /\ coupncd fuel (JDate (Some (mkDate 2023 0 15)))
          (JDate (Some (mkDate 2025 6 31))) (JNumber 2) (JNumber 0)
        <> OutOfFuel).
Proof.
  split; [valid_input |].
  apply (stepping_loops_terminate (mkDate 2023 0 15) (mkDate 2025 6 31) 2 0).
  valid_input.
Defined.

(** C9. The basis takes part in validation only: with any two bases of
    {0, ..., 4}, [couppcd] yields the same result and so does [coupncd],
    whatever the other arguments and the iteration bound. *)
Theorem coupon_dates_ignore_basis (fuel : nat)
    (settlement maturity frequency : JsVal) (b1 b2 : Z) :
  In b1 [0; 1; 2; 3; 4] -> In b2 [0; 1; 2; 3; 4] ->
  couppcd fuel settlement maturity frequency (JNumber b1)
  = couppcd fuel settlement maturity frequency (JNumber b2)
  /\ coupncd fuel settlement maturity frequency (JNumber b1)
     = coupncd fuel settlement maturity frequency (JNumber b2).
Proof.
  intros H1 H2.
  assert (E : forall name,
    argsValidator name settlement maturity frequency (JNumber b1)
    = argsValidator name settlement maturity frequency (JNumber b2)).
  { intros name. unfold argsValidator.
    apply validBasis_iff in H1, H2. rewrite H1, H2. reflexivity. }
  unfold couppcd, coupncd. cbn [orDefault]. rewrite !E. split; reflexivity.
Qed.

Lemma coupon_dates_ignore_basis_witness :
  couppcd 8 (JDate (Some (mkDate 2023 0 15)))
    (JDate (Some (mkDate 2025 6 31))) (JNumber 2) (JNumber 1)
  = couppcd 8 (JDate (Some (mkDate 2023 0 15)))
      (JDate (Some (mkDate 2025 6 31))) (JNumber 2) (JNumber 4)
  /\ coupncd 8 (JDate (Some (mkDate 2023 0 15)))
       (JDate (Some (mkDate 2025 6 31))) (JNumber 2) (JNumber 1)
     = coupncd 8 (JDate (Some (mkDate 2023 0 15)))
         (JDate (Some (mkDate 2025 6 31))) (JNumber 2) (JNumber 4).
Proof.
  apply (coupon_dates_ignore_basis 8 _ _ _ 1 4); cbn; lia.
Defined.

(** An omitted basis is basis 0. *)
Lemma basis_default (fuel : nat) (s m f : JsVal) :
  couppcd fuel s m f JUndefined = couppcd fuel s m f (JNumber 0)
  /\ coupncd fuel s m f JUndefined = coupncd fuel s m f (JNumber 0)
  /\ coupdaybs fuel s m f JUndefined = coupdaybs fuel s m f (JNumber 0)
  /\ coupdays fuel s m f JUndefined = coupdays fuel s m f (JNumber 0)
  /\ coupdaysnc fuel s m f JUndefined = coupdaysnc fuel s m f (JNumber 0)
  /\ coupnum fuel s m f JUndefined = coupnum fuel s m f (JNumber 0).
Proof. repeat split; reflexivity. Qed.



(** C7. For every valid input [coupdays] returns the day count from
    [couppcd] to [coupncd] when the basis is 1, and the rounded quotient
    of the days of the year of the basis by the frequency for every other
    basis; for frequency 2 and basis 0 this is 180 whatever the dates.
    With basis 1 both dates are returned, and the count is taken from
    the date [couppcd] returns to the [Date] object [coupncd] returns,
    which is a valid date, and the count an integer, for a settlement in
    [InTimeRange]. *)
Theorem coupdays_value (s m : Date) (f b : Z) :
  ValidInput s m f b ->
  (b = 1 ->
     exists (pcd : Date) (ncd : DateObj),
       forall fuel, (coupon_fuel s m <= fuel)%nat ->
         couppcd fuel (JDate (Some s)) (JDate (Some m)) (JNumber f)
           (JNumber b) = Ret pcd
         /\ coupncd fuel (JDate (Some s)) (JDate (Some m)) (JNumber f)
              (JNumber b) = Ret ncd
         /\ coupdays fuel (JDate (Some s)) (JDate (Some m)) (JNumber f)
              (JNumber b) = Ret (daysBetweenObj pcd ncd (Some 1)))
  /\ (b = 1 -> InTimeRange s ->
     exists pcd ncd : Date,
       forall fuel, (coupon_fuel s m <= fuel)%nat ->
         couppcd fuel (JDate (Some s)) (JDate (Some m)) (JNumber f)
           (JNumber b) = Ret pcd
         /\ coupncd fuel (JDate (Some s)) (JDate (Some m)) (JNumber f)
              (JNumber b) = Ret ncd
         /\ coupdays fuel (JDate (Some s)) (JDate (Some m)) (JNumber f)
              (JNumber b) = Ret (daysBetween pcd ncd (Some 1)))
  /\ (b <> 1 ->
     forall fuel,
       coupdays fuel (JDate (Some s)) (JDate (Some m)) (JNumber f) (JNumber b)
       = Ret (Math_round (inject_Z (getDaysInYear 0 b) / inject_Z f)%Q))
  /\ (f = 2 -> b = 0 ->
     forall fuel,
       coupdays fuel (JDate (Some s)) (JDate (Some m)) (JNumber f) (JNumber b)
       = Ret 180).
Proof.
  intros Hv. split; [| split; [| split]].
  - intros ->.
    destruct (couppcd_returns s m f 1 Hv) as (pcd & _ & _ & Hp).
    destruct (coupncd_returns s m f 1 Hv) as (ncd & Hn).
    exists pcd, ncd. intros fuel Hfuel.
    apply coupon_fuel_enough in Hfuel as [H9 H2].
    rewrite (coupdays_valid s m f 1 Hv fuel), (Hp fuel H2), (Hn fuel H9).
    auto.
  - intros -> Hi.
    destruct (couppcd_returns s m f 1 Hv) as (pcd & _ & _ & Hp).
    destruct (coupncd_unclipped_returns s m f 1 Hv) as (ncd & _ & _ & Hn).
    exists pcd, ncd. intros fuel Hfuel.
    apply coupon_fuel_enough in Hfuel as [H9 H2].
    rewrite (coupdays_valid s m f 1 Hv fuel), (Hp fuel H2),
      (coupncd_in_range s m f 1 Hv fuel Hi), (Hn fuel H9).
    auto.
  - intros Hb fuel. rewrite (coupdays_valid s m f b Hv fuel).
    destruct (b =? 1) eqn:E; [apply Z.eqb_eq in E; contradiction |].
    reflexivity.
  - intros -> -> fuel. rewrite (coupdays_valid s m 2 0 Hv fuel). reflexivity.
Qed.

Lemma coupdays_value_witness :
  ValidInput (mkDate 2023 0 15) (mkDate 2025 6 31) 2 0
  /\ forall fuel,
       coupdays fuel (JDate (Some (mkDate 2023 0 15)))
         (JDate (Some (mkDate 2025 6 31))) (JNumber 2) (JNumber 0) = Ret 180.
Proof.
  split; [valid_input |].
  apply (coupdays_value (mkDate 2023 0 15) (mkDate 2025 6 31) 2 0);
    [valid_input | reflexivity | reflexivity].
Defined.

(** C5. The validator makes its checks in the fixed order presence,
    settlement date, maturity date, frequency, basis, date range: it
    raises the error of a check exactly when that check fails and all
    checks before it pass, so the first applicable error wins (an invalid
    frequency is reported before an invalid basis), and it returns true,
    raising nothing, exactly when every check passes. *)
Theorem argsValidator_check_order (funcName : string)
    (settlement maturity frequency basis : JsVal) :
  argsValidator funcName settlement maturity frequency basis
  = validate funcName settlement maturity frequency basis
  /\ (forall c,
        argsValidator funcName settlement maturity frequency basis
        = Throw (error_of funcName c)
        <-> passes c settlement maturity frequency basis = false
            /\ forall c', (check_index c' < check_index c)%nat ->
                 passes c' settlement maturity frequency basis = true)
  /\ (argsValidator funcName settlement maturity frequency basis = Ret true
      <-> forall c, passes c settlement maturity frequency basis = true)
  /\ (hasRequiredArgs [settlement; maturity; frequency]
      && validDate settlement && validDate maturity
      && negb (validFrequency frequency) && negb (validBasis basis) = true
      -> argsValidator funcName settlement maturity frequency basis
         = Throw (mkError ClsRangeError funcName InvalidFrequency)).
Proof.
  unfold argsValidator, validate, first_failure, check_order.
  cbn [find passes].
  replace (daysBetween (dateOf settlement) (dateOf maturity) None <=? 0)
    with (negb (0 <? daysBetween (dateOf settlement) (dateOf maturity) None))
    by (symmetry; apply Z.leb_antisym).
  set (p0 := hasRequiredArgs _). set (p1 := validDate settlement).
  set (p2 := validDate maturity). set (p3 := validFrequency frequency).
  set (p4 := validBasis basis). set (p5 := 0 <? _).
  assert (Hall : forall P : Check -> Prop,
            (forall c, P c)
            <-> P Presence /\ P SettlementIsDate /\ P MaturityIsDate
                /\ P FrequencyInSet /\ P BasisInSet
                /\ P SettlementBeforeMaturity).
  { intros P. split; [auto 10 |].
    intros (? & ? & ? & ? & ? & ?) []; assumption. }
  split; [| split; [| split]].
  - destruct p0, p1, p2, p3, p4, p5; reflexivity.
  - intros c. rewrite (Hall (fun c' => (_ < _)%nat -> _)).
    destruct c; cbn [passes check_index error_of];
      fold p0 p1 p2 p3 p4 p5;
      destruct p0, p1, p2, p3, p4, p5; cbn [negb];
      (split; [ intros H; try discriminate H;
                repeat split; intros; try reflexivity; lia
              | intros (H & H0 & H1 & H2 & H3 & H4 & H5);
                try discriminate H;
                try (discriminate H0; lia); try (discriminate H1; lia);
                try (discriminate H2; lia); try (discriminate H3; lia);
                try (discriminate H4; lia); try (discriminate H5; lia);
                try reflexivity ]).
  - rewrite (Hall (fun c => passes c _ _ _ _ = true)). cbn [passes].
    fold p0 p1 p2 p3 p4 p5.
    destruct p0, p1, p2, p3, p4, p5; cbn [negb];
      (split; [intros H; try discriminate H; auto 10
              | intros (? & ? & ? & ? & ? & ?); try discriminate;
                reflexivity]).
  - destruct p0, p1, p2, p3, p4; cbn; intros H; try discriminate H;
      reflexivity.
Qed.

(** An error of the validator leaves each exported function as it is,
    before any loop is entered. *)
Lemma validator_error_propagates (fuel : nat) (s m f basis : JsVal)
    (k : ErrorKind) (c : ErrorClass) :
  (forall name,
     argsValidator name s m f (orDefault basis (JNumber 0))
     = Throw (mkError c name k)) ->
  couppcd fuel s m f basis = Throw (mkError c "couppcd" k)
  /\ coupncd fuel s m f basis = Throw (mkError c "coupncd" k)
  /\ coupdaybs fuel s m f basis = Throw (mkError c "coupdaybs" k)
  /\ coupdays fuel s m f basis = Throw (mkError c "coupdays" k)
  /\ coupdaysnc fuel s m f basis = Throw (mkError c "coupdaysnc" k)
  /\ coupnum fuel s m f basis = Throw (mkError c "coupnum" k).
Proof.
  intros H.
  unfold couppcd, coupncd, coupdaybs, coupdays, coupdaysnc, coupnum.
  cbv zeta. rewrite !H. repeat split; reflexivity.
Qed.

(** C6. For well-formed dates with settlement equal to or later than
    maturity (and a frequency and a basis that pass their own checks)
    every exported function raises the date-range error, with no loop
    iteration made; the check is the basis-0 day count from settlement to
    maturity being at most 0, whatever basis was passed. *)
Theorem settlement_not_before_maturity (s m : Date) (f : Z) (basis : JsVal) :
  wf s -> wf m -> In f [1; 2; 4] ->
  basis = JUndefined \/ (exists b, basis = JNumber b /\ In b [0; 1; 2; 3; 4]) ->
  (forall name,
     argsValidator name (JDate (Some s)) (JDate (Some m)) (JNumber f)
       (orDefault basis (JNumber 0))
     = if daysBetween s m (Some 0) <=? 0
       then Throw (mkError ClsRangeError name InvalidDateRange)
       else Ret true)
  /\ (valueOf m <= valueOf s ->
      forall fuel,
        couppcd fuel (JDate (Some s)) (JDate (Some m)) (JNumber f) basis
        = Throw (mkError ClsRangeError "couppcd" InvalidDateRange)
        /\ coupncd fuel (JDate (Some s)) (JDate (Some m)) (JNumber f) basis
           = Throw (mkError ClsRangeError "coupncd" InvalidDateRange)
        /\ coupdaybs fuel (JDate (Some s)) (JDate (Some m)) (JNumber f) basis
           = Throw (mkError ClsRangeError "coupdaybs" InvalidDateRange)
        /\ coupdays fuel (JDate (Some s)) (JDate (Some m)) (JNumber f) basis
           = Throw (mkError ClsRangeError "coupdays" InvalidDateRange)
        /\ coupdaysnc fuel (JDate (Some s)) (JDate (Some m)) (JNumber f) basis
           = Throw (mkError ClsRangeError "coupdaysnc" InvalidDateRange)
        /\ coupnum fuel (JDate (Some s)) (JDate (Some m)) (JNumber f) basis
           = Throw (mkError ClsRangeError "coupnum" InvalidDateRange)).
Proof.
  intros Hs Hm Hf Hb.
  assert (Hvb : validBasis (orDefault basis (JNumber 0)) = true).
  { destruct Hb as [-> | (b & -> & Hb)]; [reflexivity |].
    now apply validBasis_iff. }
  assert (Hval : forall name,
    argsValidator name (JDate (Some s)) (JDate (Some m)) (JNumber f)
      (orDefault basis (JNumber 0))
    = if daysBetween s m (Some 0) <=? 0
      then Throw (mkError ClsRangeError name InvalidDateRange)
      else Ret true).
  { intros name. unfold argsValidator.
    cbn [hasRequiredArgs forallb validDate andb negb dateOf].
    apply validFrequency_iff in Hf. rewrite Hf, Hvb. reflexivity. }
  split; [exact Hval |].
  intros Hle fuel. apply validator_error_propagates.
  intros name. rewrite Hval.
  pose proof (daysBetween_default_nonpos s m Hs Hm Hle) as Hn.
  change (daysBetween s m None) with (daysBetween s m (Some 0)) in Hn.
  apply Z.leb_le in Hn. rewrite Hn. reflexivity.
Qed.

Lemma settlement_not_before_maturity_witness :
    couppcd 0 (JDate (Some (mkDate 2024 1 29)))
      (JDate (Some (mkDate 2024 1 29))) (JNumber 2) (JNumber 3)
    = Throw (mkError ClsRangeError "couppcd" InvalidDateRange)
    /\ coupncd 0 (JDate (Some (mkDate 2024 1 29)))
         (JDate (Some (mkDate 2024 1 29))) (JNumber 2) (JNumber 3)
       = Throw (mkError ClsRangeError "coupncd" InvalidDateRange)
    /\ coupdaybs 0 (JDate (Some (mkDate 2024 1 29)))
         (JDate (Some (mkDate 2024 1 29))) (JNumber 2) (JNumber 3)
       = Throw (mkError ClsRangeError "coupdaybs" InvalidDateRange)
    /\ coupdays 0 (JDate (Some (mkDate 2024 1 29)))
         (JDate (Some (mkDate 2024 1 29))) (JNumber 2) (JNumber 3)
       = Throw (mkError ClsRangeError "coupdays" InvalidDateRange)
    /\ coupdaysnc 0 (JDate (Some (mkDate 2024 1 29)))
         (JDate (Some (mkDate 2024 1 29))) (JNumber 2) (JNumber 3)
       = Throw (mkError ClsRangeError "coupdaysnc" InvalidDateRange)
    /\ coupnum 0 (JDate (Some (mkDate 2024 1 29)))
         (JDate (Some (mkDate 2024 1 29))) (JNumber 2) (JNumber 3)
       = Throw (mkError ClsRangeError "coupnum" InvalidDateRange).
Proof.
  refine (proj2 (settlement_not_before_maturity
           (mkDate 2024 1 29) (mkDate 2024 1 29) 2 (JNumber 3) _ _ _ _)
           _ 0%nat).
  - unfold wf; cbn; lia.
  - unfold wf; cbn; lia.
  - cbn; lia.
  - right. exists 3. split; [reflexivity | cbn; lia].
  - cbn; lia.
Defined.

(** C4, as the code has it.  For settlement 2023-01-15, maturity
    2025-07-31, frequency 2 and basis 0, [couppcd] returns 2022-07-31,
    the last date of the schedule stepped back from maturity that is not
    after settlement, once six iterations are allowed. *)
Theorem example_2023_previous_coupon (fuel : nat) :
  (6 <= fuel)%nat ->
  couppcd fuel (JDate (Some (mkDate 2023 0 15)))
    (JDate (Some (mkDate 2025 6 31))) (JNumber 2) (JNumber 0)
  = Ret (mkDate 2022 6 31).
Proof.
  intros Hfuel.
  rewrite (couppcd_valid _ _ 2 0) by valid_input.
  apply (couppcd_loop_more 6); [vm_compute; reflexivity | exact Hfuel].
Qed.

Lemma example_2023_previous_coupon_witness :
  couppcd 6 (JDate (Some (mkDate 2023 0 15)))
    (JDate (Some (mkDate 2025 6 31))) (JNumber 2) (JNumber 0)
  = Ret (mkDate 2022 6 31).
Proof.
  apply (example_2023_previous_coupon 6). lia.
Defined.

(** C4 as stated fails: with no fuel does [couppcd] return 2023-01-31 for
    that input, a date after the settlement date 2023-01-15. *)
Lemma example_2023_counterexample :
  ~ (exists fuel,
       couppcd fuel (JDate (Some (mkDate 2023 0 15)))
         (JDate (Some (mkDate 2025 6 31))) (JNumber 2) (JNumber 0)
       = Ret (mkDate 2023 0 31)
       /\ coupncd fuel (JDate (Some (mkDate 2023 0 15)))
            (JDate (Some (mkDate 2025 6 31))) (JNumber 2) (JNumber 0)
          = Ret (mkDate 2023 6 31)).
Proof.
  intros (fuel & Hp & _).
  assert (Hv : ValidInput (mkDate 2023 0 15) (mkDate 2025 6 31) 2 0)
    by valid_input.
  assert (H6 : couppcd 6 (JDate (Some (mkDate 2023 0 15)))
                 (JDate (Some (mkDate 2025 6 31))) (JNumber 2) (JNumber 0)
               = Ret (mkDate 2022 6 31)) by (vm_compute; reflexivity).
  pose proof (couppcd_det _ _ _ _ Hv _ _ _ _ Hp H6) as E.
  discriminate E.
Qed.

(** The worked examples of the spreadsheet functions the module follows:
    settlement 2011-01-25, maturity 2011-11-15, two coupons a year,
    actual/actual basis, and for the count of coupons settlement
    2007-01-25, maturity 2008-11-15. *)
Example spreadsheet_examples :
  let s := JDate (Some (mkDate 2011 0 25)) in
  let m := JDate (Some (mkDate 2011 10 15)) in
  couppcd 9 s m (JNumber 2) (JNumber 1) = Ret (mkDate 2010 10 15)
  /\ coupncd 9 s m (JNumber 2) (JNumber 1) = Ret (mkDate 2011 4 15)
  /\ coupdaybs 9 s m (JNumber 2) (JNumber 1) = Ret 71
  /\ coupdays 9 s m (JNumber 2) (JNumber 1) = Ret 181
  /\ coupdaysnc 9 s m (JNumber 2) (JNumber 1) = Ret 110
  /\ coupnum 9 (JDate (Some (mkDate 2007 0 25)))
       (JDate (Some (mkDate 2008 10 15))) (JNumber 2) (JNumber 1)
     = Ret (inject_Z 4).
Proof. vm_compute. repeat split; reflexivity. Qed.

(** The leap-anchor scenario of the specification: for settlement
    2023-02-28, maturity 2024-02-29 and frequency 2 the previous coupon
    date is 2023-02-28. *)
Example leap_anchor_previous_coupon :
  couppcd 2 (JDate (Some (mkDate 2023 1 28)))
    (JDate (Some (mkDate 2024 1 29))) (JNumber 2) JUndefined
  = Ret (mkDate 2023 1 28).
Proof. vm_compute. reflexivity. Qed.

(** What [coupncd] returns for the input of C4. *)
Example example_2023_next_coupon :
  coupncd 9 (JDate (Some (mkDate 2023 0 15)))
    (JDate (Some (mkDate 2025 6 31))) (JNumber 2) (JNumber 0)
  = Ret (mkDate 2023 5 30).
Proof. vm_compute. reflexivity. Qed.

(** The backward stepping of [couppcd] keeps month ends: the dates it
    returns for a month-end maturity are month ends. *)
Lemma couppcd_keeps_month_end (s m : Date) (f b : Z) :
  ValidInput s m f b -> isEOM m = true ->
  exists pcd,
    isEOM pcd = true
    /\ forall fuel, (coupon_fuel s m <= fuel)%nat ->
       couppcd fuel (JDate (Some s)) (JDate (Some m)) (JNumber f) (JNumber b)
       = Ret pcd.
Proof.
  intros Hv He. pose proof Hv as (Hs & Hm & Hf & _).
  destruct (couppcd_returns s m f b Hv) as (pcd & _ & _ & Hp).
  exists pcd. split.
  - pose proof (Hp (coupon_fuel s m)
                  (proj2 (coupon_fuel_enough s m _ (Nat.le_refl _)))) as H.
    rewrite (couppcd_valid s m f b Hv) in H.
    destruct (couppcd_loop_ret _ _ _ _ _ _ H) as (k & _ & -> & _).
    rewrite He. clear H Hp. induction k as [| k IH]; [exact He |].
    cbn [Nat.iter nat_rect]. unfold pcd_step at 1.
    apply (addDate_eom _ 0 (-12 / f) 0 IH).
  - intros fuel Hfuel. apply Hp. now apply coupon_fuel_enough.
Qed.

(** C3 on the code.  Maturity 2030-04-30 is the last day of its month;
    for settlement 2026-10-15 and frequency 4 [coupncd] returns
    2027-01-30, which is not the last day of January. *)
Theorem coupncd_misses_month_end :
  ValidInput (mkDate 2026 9 15) (mkDate 2030 3 30) 4 0
  /\ isEOM (mkDate 2030 3 30) = true
  /\ coupncd 9 (JDate (Some (mkDate 2026 9 15)))
       (JDate (Some (mkDate 2030 3 30))) (JNumber 4) (JNumber 0)
     = Ret (mkDate 2027 0 30)
  /\ isEOM (mkDate 2027 0 30) = false.
Proof.
  split; [valid_input |]. repeat split; vm_compute; reflexivity.
Qed.

(** ** The count of remaining coupons *)

Lemma Qred_inject_Z (k : Z) : Qred (inject_Z k) = inject_Z k.
Proof.
  unfold Qred, inject_Z.
  pose proof (Z.ggcd_gcd k 1) as Hg.
  pose proof (Z.ggcd_correct_divisors k 1) as Hd.
  destruct (Z.ggcd k 1) as (g, (q1, q2)). cbn [fst snd] in *.
  rewrite Z.gcd_1_r in Hg. subst g. destruct Hd as [Hk H1].
  assert (E2 : q2 = 1) by lia. assert (E1 : q1 = k) by lia.
  rewrite E1, E2. reflexivity.
Qed.

Lemma ratio_whole (k : Z) :
  Qred (inject_Z (12 * k) / inject_Z 12)%Q = inject_Z k.
Proof.
  rewrite <- (Qred_inject_Z k). apply Qred_complete.
  unfold Qeq, Qdiv, Qmult, Qinv, inject_Z. cbn -[Z.mul]. lia.
Qed.

Lemma ratio_positive (a : Z) :
  0 < a -> (0 < Qred (inject_Z a / inject_Z 12))%Q.
Proof.
  intros Ha. rewrite Qred_correct.
  unfold Qlt, Qdiv, Qmult, Qinv, inject_Z. cbn -[Z.mul]. lia.
Qed.

(** After [k] backward steps at least [2 k] months lie behind. *)
Lemma iter_pcd_step_monthIndex (f : Z) (eom : bool) (m : Date) (k : nat) :
  In f [1; 2; 4] -> wf m ->
  monthIndex (Nat.iter k (pcd_step f eom) m)
  <= monthIndex m - 2 * Z.of_nat k.
Proof.
  intros Hf Hm. induction k as [| k IH]; [cbn; lia |].
  cbn [Nat.iter nat_rect].
  pose proof (pcd_step_monthIndex f eom _ Hf (iter_pcd_step_wf f eom m k Hm)).
  fold (Nat.iter k (pcd_step f eom) m) in *. lia.
Qed.

(** From a month end, or from a day that every month has, [k] backward
    steps lead exactly [k] periods of [12 / f] months back. *)
Lemma iter_pcd_step_exact (f : Z) (m : Date) (k : nat) :
  In f [1; 2; 4] -> wf m -> isEOM m = true \/ day m <= 28 ->
  monthIndex (Nat.iter k (pcd_step f (isEOM m)) m)
  = monthIndex m - Z.of_nat k * (12 / f).
Proof.
  intros Hf Hm Hday.
  assert (Hp : -12 / f = - (12 / f))
    by (destruct (period_cases f Hf) as [(_ & -> & ->) | [(_ & -> & ->) |
          (_ & -> & ->)]]; reflexivity).
  destruct (isEOM m) eqn:He.
  - assert (H : isEOM (Nat.iter k (pcd_step f true) m) = true
                /\ monthIndex (Nat.iter k (pcd_step f true) m)
                   = monthIndex m - Z.of_nat k * (12 / f)).
    { induction k as [| k [IHe IHi]]; [cbn; split; [exact He | lia] |].
      cbn [Nat.iter nat_rect]. fold (Nat.iter k (pcd_step f true) m).
      destruct (addDate_eom _ 0 (-12 / f) 0 IHe) as [E I].
      unfold pcd_step at 1 3. split; [exact E |].
      rewrite I, IHi, Hp, Nat2Z.inj_succ. lia. }
    apply H.
  - destruct Hday as [Hx | Hday]; [discriminate |].
    assert (H : wf (Nat.iter k (pcd_step f false) m)
                /\ day (Nat.iter k (pcd_step f false) m) = day m
                /\ monthIndex (Nat.iter k (pcd_step f false) m)
                   = monthIndex m - Z.of_nat k * (12 / f)).
    { induction k as [| k (IHw & IHd & IHi)];
        [cbn; repeat split; try apply Hm; lia |].
      cbn [Nat.iter nat_rect]. fold (Nat.iter k (pcd_step f false) m).
      destruct (addDate_small_day _ 0 (-12 / f) IHw ltac:(lia)) as [E I].
      unfold pcd_step at 1 3 5. split; [apply addDate_wf |].
      split; [lia |]. rewrite I, IHi, Hp, Nat2Z.inj_succ. lia. }
    apply H.
Qed.



(** Outside these maturities the number depends on what [addDate] does
    with a day its target month lacks.  With the overflow of day
    arithmetic modelled in [addDate], settlement 2026-03-15, maturity
    2026-05-30 and frequency 4 give one backward step that asks for 30
    February and lands on 2 March, two months before maturity, and
    [coupnum] returns 2/3. *)
Example coupnum_fraction_on_overflow :
  ValidInput (mkDate 2026 2 15) (mkDate 2026 4 30) 4 0
  /\ couppcd 1 (JDate (Some (mkDate 2026 2 15)))
       (JDate (Some (mkDate 2026 4 30))) (JNumber 4) (JNumber 0)
     = Ret (mkDate 2026 2 2)
  /\ coupnum 1 (JDate (Some (mkDate 2026 2 15)))
       (JDate (Some (mkDate 2026 4 30))) (JNumber 4) (JNumber 0)
     = Ret (2 # 3)%Q.
Proof.
  split; [valid_input |]. split; vm_compute; reflexivity.
Qed.

(** * Further properties of the module *)

(** ** Exceptions of the exported functions *)

Module ThrowFacts.

(** The validator accepts or rejects alike under every function name,
    and a rejection differs by the name only. *)
Lemma argsValidator_cases (s m f b : JsVal) :
  (forall name, argsValidator name s m f b = Ret true)
  \/ (exists c k, forall name,
        argsValidator name s m f b = Throw (mkError c name k)).
Proof.
  unfold argsValidator.
  destruct (negb (hasRequiredArgs [s; m; f])); [right; eauto |].
  destruct (negb (validDate s)); [right; eauto |].
  destruct (negb (validDate m)); [right; eauto |].
  destruct (negb (validFrequency f)); [right; eauto |].
  destruct (negb (validBasis b)); [right; eauto |].
  destruct (daysBetween (dateOf s) (dateOf m) None <=? 0);
    [right; eauto | left; reflexivity].
Qed.

Lemma orDefault_idem (b : JsVal) :
  orDefault (orDefault b (JNumber 0)) (JNumber 0) = orDefault b (JNumber 0).
Proof. destruct b; reflexivity. Qed.

(** The loops return or run on; they raise nothing. *)
Lemma couppcd_loop_no_throw (fuel : nat) :
  forall s d f eom e, couppcd_loop fuel s d f eom <> Throw e.
Proof.
  induction fuel as [| n IH]; intros s d f eom e; cbn [couppcd_loop];
    destruct (valueOf s <? valueOf d); try discriminate. apply IH.
Qed.

Lemma coupncd_loop_no_throw (fuel : nat) :
  forall s d f e, coupncd_loop fuel s d f <> Throw e.
Proof.
  induction fuel as [| n IH]; intros s d f e; cbn [coupncd_loop];
    destruct (num_ge _ _); try discriminate. apply IH.
Qed.

Section Accepted.

Variables (s m f basis : JsVal).

Let b : JsVal := orDefault basis (JNumber 0).

Hypothesis Hok : forall name, argsValidator name s m f b = Ret true.

Lemma couppcd_accepted (fuel : nat) (e : JsError) :
  couppcd fuel s m f basis <> Throw e.
Proof.
  unfold couppcd. cbv zeta. fold b. rewrite Hok. cbn [bind].
  apply couppcd_loop_no_throw.
Qed.

Lemma coupncd_accepted (fuel : nat) (e : JsError) :
  coupncd fuel s m f basis <> Throw e.
Proof.
  unfold coupncd. cbv zeta. fold b. rewrite Hok. cbn [bind].
  destruct (coupncd_loop fuel _ _ _) as [d | e' |] eqn:E; cbn [bind];
    try discriminate.
  exfalso. exact (coupncd_loop_no_throw _ _ _ _ _ E).
Qed.

End Accepted.

Section AcceptedCounts.

Variables (s m f basis : JsVal).

Let b : JsVal := orDefault basis (JNumber 0).

Hypothesis Hok : forall name, argsValidator name s m f b = Ret true.

Let Hok' : forall name,
    argsValidator name s m f (orDefault b (JNumber 0)) = Ret true.
Proof. intros name. unfold b. rewrite orDefault_idem. apply Hok. Qed.

Lemma coupdaybs_accepted (fuel : nat) (e : JsError) :
  coupdaybs fuel s m f basis <> Throw e.
Proof.
  unfold coupdaybs. cbv zeta. fold b. rewrite Hok. cbn [bind].
  destruct (couppcd fuel s m f b) as [d | e' |] eqn:E; cbn [bind];
    try discriminate.
  exfalso. exact (couppcd_accepted s m f b Hok' fuel e' E).
Qed.

Lemma coupdays_accepted (fuel : nat) (e : JsError) :
  coupdays fuel s m f basis <> Throw e.
Proof.
  unfold coupdays. cbv zeta. fold b. rewrite Hok. cbn [bind].
  destruct (numberOf b =? 1); [| discriminate].
  destruct (couppcd fuel s m f b) as [d | e' |] eqn:E; cbn [bind];
    try discriminate;
    [| exfalso; exact (couppcd_accepted s m f b Hok' fuel e' E)].
  destruct (coupncd fuel s m f b) as [d' | e' |] eqn:E'; cbn [bind];
    try discriminate.
  exfalso. exact (coupncd_accepted s m f b Hok' fuel e' E').
Qed.

Lemma coupnum_accepted (fuel : nat) (e : JsError) :
  coupnum fuel s m f basis <> Throw e.
Proof.
  unfold coupnum. cbv zeta. fold b. rewrite Hok. cbn [bind].
  destruct (couppcd fuel s m f b) as [d | e' |] eqn:E; cbn [bind];
    [| exfalso; exact (couppcd_accepted s m f b Hok' fuel e' E)
     | discriminate].
  destruct (splitDate d) as [[y mo] dd].
  destruct (splitDate (dateOf m)) as [[y1 m1] d1]. discriminate.
Qed.

End AcceptedCounts.

Lemma coupdaysnc_accepted (s m f basis : JsVal) :
  (forall name,
     argsValidator name s m f (orDefault basis (JNumber 0)) = Ret true) ->
  forall fuel e, coupdaysnc fuel s m f basis <> Throw e.
Proof.
  intros Hok fuel e. unfold coupdaysnc. cbv zeta. rewrite Hok. cbn [bind].
  set (b := orDefault basis (JNumber 0)) in *.
  assert (Hok' : forall name,
    argsValidator name s m f (orDefault b (JNumber 0)) = Ret true)
    by (intros name; unfold b; rewrite orDefault_idem; apply Hok).
  destruct (numberOf b =? 0).
  - destruct (coupdays fuel s m f b) as [d | e' |] eqn:E; cbn [bind];
      try discriminate;
      [| exfalso; exact (coupdays_accepted s m f b Hok' fuel e' E)].
    destruct (coupdaybs fuel s m f b) as [d' | e' |] eqn:E'; cbn [bind];
      try discriminate.
    exfalso. exact (coupdaybs_accepted s m f b Hok' fuel e' E').
  - destruct (coupncd fuel s m f b) as [d | e' |] eqn:E; cbn [bind];
      try discriminate.
    exfalso. exact (coupncd_accepted s m f b Hok' fuel e' E).
Qed.

End ThrowFacts.

Import ThrowFacts.

(** X1. Each exported function raises exactly the error its own call of
    the validator raises, on the arguments with an omitted basis replaced
    by 0, so an error always names the function that was called; the
    calls it makes to other exported functions never raise, and neither
    do the loops. *)
Theorem exported_functions_throw_as_validator (fuel : nat)
    (s m f basis : JsVal) (e : JsError) :
  let b := orDefault basis (JNumber 0) in
  (couppcd fuel s m f basis = Throw e
   <-> argsValidator "couppcd" s m f b = Throw e)
  /\ (coupncd fuel s m f basis = Throw e
      <-> argsValidator "coupncd" s m f b = Throw e)
  /\ (coupdaybs fuel s m f basis = Throw e
      <-> argsValidator "coupdaybs" s m f b = Throw e)
  /\ (coupdays fuel s m f basis = Throw e
      <-> argsValidator "coupdays" s m f b = Throw e)
  /\ (coupdaysnc fuel s m f basis = Throw e
      <-> argsValidator "coupdaysnc" s m f b = Throw e)
  /\ (coupnum fuel s m f basis = Throw e
      <-> argsValidator "coupnum" s m f b = Throw e).
Proof.
  intros b.
  destruct (argsValidator_cases s m f b) as [Hok | (c & k & Hbad)].
  - rewrite !Hok.
    pose proof (couppcd_accepted s m f basis Hok fuel e).
    pose proof (coupncd_accepted s m f basis Hok fuel e).
    pose proof (coupdaybs_accepted s m f basis Hok fuel e).
    pose proof (coupdays_accepted s m f basis Hok fuel e).
    pose proof (coupdaysnc_accepted s m f basis Hok fuel e).
    pose proof (coupnum_accepted s m f basis Hok fuel e).
    repeat split; intros; try contradiction; discriminate.
  - rewrite !Hbad.
    destruct (validator_error_propagates fuel s m f basis k c Hbad)
      as (-> & -> & -> & -> & -> & ->).
    repeat split; intros H; injection H as <-; reflexivity.
Qed.

(** ** Where the coupon dates lie *)

Module WindowFacts.

Lemma pcd_step_monthIndex_lower (f : Z) (eom : bool) (d : Date) :
  In f [1; 2; 4] -> wf d ->
  monthIndex d - 12 / f <= monthIndex (pcd_step f eom d).
Proof.
  intros Hf Hd.
  unfold pcd_step. pose proof (addDate_monthIndex d 0 (-12 / f) eom Hd).
  destruct (period_cases f Hf) as [(_ & -> & E) | [(_ & -> & E) |
    (_ & -> & E)]]; rewrite E in *; lia.
Qed.

Lemma ncd_step_monthIndex_upper (f : Z) (d : Date) :
  In f [1; 2; 4] -> wf d ->
  monthIndex (ncd_step f d) <= monthIndex d + 12 / f + 1.
Proof.
  intros Hf Hd. unfold ncd_step.
  pose proof (addDate_monthIndex d 0 (12 / f) false Hd). lia.
Qed.

Lemma iter_pcd_step_add (f : Z) (eom : bool) (m : Date) (j n : nat) :
  Nat.iter (n + j) (pcd_step f eom) m
  = Nat.iter n (pcd_step f eom) (Nat.iter j (pcd_step f eom) m).
Proof.
  induction n as [| n IH]; [reflexivity |].
  cbn [Nat.add Nat.iter nat_rect]. f_equal. exact IH.
Qed.

(** The dates stepped back from maturity go strictly down. *)
Lemma iter_pcd_step_decreasing (f : Z) (eom : bool) (m : Date) (j k : nat) :
  In f [1; 2; 4] -> wf m -> (j < k)%nat ->
  valueOf (Nat.iter k (pcd_step f eom) m)
  < valueOf (Nat.iter j (pcd_step f eom) m).
Proof.
  intros Hf Hm Hjk. replace k with ((k - j) + j)%nat by lia.
  rewrite iter_pcd_step_add.
  pose proof (iter_pcd_step_wf f eom m j Hm) as Hj.
  pose proof (iter_pcd_step_monthIndex f eom _ (k - j) Hf Hj) as Hi.
  apply valueOf_lt_iff. apply monthIndex_lt_dayNumber;
    [now apply iter_pcd_step_wf | exact Hj | lia].
Qed.

(** What [couppcd] returns on a valid input, by the number of backward
    steps. *)
Lemma couppcd_steps (s m : Date) (f b : Z) :
  ValidInput s m f b ->
  exists k : nat,
    (1 <= k)%nat
    /\ valueOf (Nat.iter k (pcd_step f (isEOM m)) m) <= valueOf s
    /\ (forall j, (j < k)%nat ->
          valueOf s < valueOf (Nat.iter j (pcd_step f (isEOM m)) m))
    /\ forall fuel, (coupon_fuel s m <= fuel)%nat ->
         couppcd fuel (JDate (Some s)) (JDate (Some m)) (JNumber f)
           (JNumber b) = Ret (Nat.iter k (pcd_step f (isEOM m)) m).
Proof.
  intros Hv. pose proof (ValidInput_before s m f b Hv) as Hlt.
  destruct (couppcd_returns s m f b Hv) as (pcd & _ & _ & Hp).
  assert (Hc : monthIndex m - monthIndex s < 2 * Z.of_nat (coupon_fuel s m))
    by (apply coupon_fuel_enough; lia).
  pose proof (Hp _ Hc) as H. rewrite (couppcd_valid s m f b Hv) in H.
  destruct (couppcd_loop_ret _ _ _ _ _ _ H) as (k & _ & Hk & Hle & Hj).
  exists k. rewrite <- Hk. repeat split; try assumption.
  - destruct k; [| lia]. cbn in Hk. subst pcd. lia.
  - intros fuel Hfuel. apply Hp. now apply coupon_fuel_enough.
Qed.

(** The date the backward loop stops at is in the month of settlement or
    at most one period before it. *)
Lemma couppcd_steps_window (s m : Date) (f : Z) (eom : bool) (k : nat) :
  In f [1; 2; 4] -> wf s -> wf m -> (1 <= k)%nat ->
  valueOf (Nat.iter k (pcd_step f eom) m) <= valueOf s ->
  (forall j, (j < k)%nat ->
     valueOf s < valueOf (Nat.iter j (pcd_step f eom) m)) ->
  monthIndex s - 12 / f <= monthIndex (Nat.iter k (pcd_step f eom) m)
  <= monthIndex s.
Proof.
  intros Hf Hs Hm Hk1 Hle Hj. split.
  - destruct k as [| k]; [lia |].
    pose proof (Hj k ltac:(lia)) as Hprev.
    pose proof (iter_pcd_step_wf f eom m k Hm) as Hwk.
    apply valueOf_lt_iff in Hprev.
    pose proof (dayNumber_le_monthIndex s _ Hs Hwk ltac:(lia)) as Hi.
    cbn [Nat.iter nat_rect]. fold (Nat.iter k (pcd_step f eom) m).
    pose proof (pcd_step_monthIndex_lower f eom _ Hf Hwk). lia.
  - apply valueOf_le_iff in Hle.
    apply (dayNumber_le_monthIndex _ s); [| exact Hs | exact Hle].
    now apply iter_pcd_step_wf.
Qed.

End WindowFacts.

Import WindowFacts.



(** ** The closing day correction of [coupncd] *)

Module FinishFacts.

Lemma fromFields_in_month (y m dt : Z) :
  0 <= m <= 11 -> 1 <= dt <= daysInMonth y m ->
  fromFields y m dt = mkDate y m dt.
Proof.
  intros Hm Hd. exact (fromFields_id (mkDate y m dt) (conj Hm Hd)).
Qed.

Lemma month_of_monthIndex (a b : Date) :
  wf a -> wf b -> monthIndex a = monthIndex b ->
  year a = year b /\ month a = month b.
Proof.
  intros [Ha _] [Hb _] E.
  destruct (monthIndex_div_mod a Ha) as [Ya Ma].
  destruct (monthIndex_div_mod b Hb) as [Yb Mb].
  rewrite E in Ya, Ma. lia.
Qed.

(** The correction stays in the month the loop stopped in; it sets the
    day to the larger of the day reached and the day of maturity, or to
    the last day of the month when the month is shorter than that. *)
Lemma coupncd_finish_spec (m d : Date) :
  wf m -> wf d ->
  let r := Unclipped.ncd_finish m d in
  wf r /\ year r = year d /\ month r = month d
  /\ ((day r = Z.max (day d) (day m)
       /\ Z.max (day d) (day m) <= daysInMonth (year d) (month d))
      \/ (isEOM r = true
          /\ daysInMonth (year d) (month d) < Z.max (day d) (day m))).
Proof.
  intros Hm Hd r. pose proof Hd as [Hdm Hdd]. pose proof Hm as [_ Hmd].
  pose proof (daysInMonth_bounds (year d) (month d)) as Bd.
  pose proof (daysInMonth_bounds (year m) (month m)) as Bm.
  unfold r, Unclipped.ncd_finish, splitDate.
  set (mx := Z.max (day d) (day m)).
  assert (Hmx : 1 <= mx <= 31) by (unfold mx; lia).
  destruct (Z_le_gt_dec mx (daysInMonth (year d) (month d))) as [Hfit | Hover].
  - assert (E : Unclipped.set_date d mx = mkDate (year d) (month d) mx)
      by (apply fromFields_in_month; lia).
    rewrite E. cbn [month]. rewrite Z.eqb_refl. cbn [negb year month day].
    split; [split; cbn [year month day]; lia |]. auto.
  - set (d' := Unclipped.set_date d mx).
    assert (Hd' : wf d') by apply setUTCDate_wf.
    assert (N : dayNumber d' = firstDay (monthIndex d) + mx - 1).
    { unfold d'. rewrite setUTCDate_dayNumber, dayNumber_firstDay. lia. }
    assert (F1 : firstDay (monthIndex d + 1)
                 = firstDay (monthIndex d) + daysInMonth (year d) (month d)).
    { unfold monthIndex. now apply daysInMonth_firstDay. }
    assert (I' : monthIndex d' = monthIndex d + 1).
    { pose proof (monthIndex_bracket d' (monthIndex d + 1) (monthIndex d + 2)
                    Hd') as B.
      pose proof (firstDay_le (monthIndex d) (monthIndex d + 2)). lia. }
    assert (Hne : (month d =? month d') = false).
    { apply Z.eqb_neq. intros Heq. destruct Hd' as [Hm' _].
      unfold monthIndex in I'. lia. }
    rewrite Hne. cbn [negb].
    set (r' := Unclipped.set_date d' 0).
    assert (Hr' : wf r') by apply setUTCDate_wf.
    assert (Nr : dayNumber r' = firstDay (monthIndex d + 1) - 1).
    { unfold r'. rewrite setUTCDate_dayNumber, dayNumber_firstDay, I'. lia. }
    assert (Ir : monthIndex r' = monthIndex d).
    { pose proof (monthIndex_bracket r' (monthIndex d) (monthIndex d + 1)
                    Hr') as B. lia. }
    destruct (month_of_monthIndex r' d Hr' Hd Ir) as [Ey Em].
    split; [exact Hr' |]. split; [exact Ey |]. split; [exact Em |].
    right. split; [| lia]. apply isEOM_iff; [exact Hr' |]. rewrite Ir. lia.
Qed.

(** The dates the forward loop passes are not after settlement. *)
Lemma coupncd_loop_steps (fuel : nat) :
  forall s d f r,
  Unclipped.ncd_loop fuel s d f = Ret r ->
  exists k : nat,
    r = Nat.iter k (ncd_step f) d
    /\ valueOf s < valueOf r
    /\ forall j, (j < k)%nat ->
         valueOf (Nat.iter j (ncd_step f) d) <= valueOf s.
Proof.
  induction fuel as [| n IH]; intros s d f r H;
    cbn [Unclipped.ncd_loop] in H;
    rewrite Z.geb_leb in H;
    destruct (valueOf d <=? valueOf s) eqn:E; try discriminate H.
  - injection H as <-. apply Z.leb_gt in E. exists 0%nat.
    split; [reflexivity | split; [exact E | intros j Hj; lia]].
  - apply Z.leb_le in E. destruct (IH _ _ _ _ H) as (k & Hr & Hlt & Hj).
    exists (S k). split; [| split; [exact Hlt |]].
    + rewrite Hr. symmetry. apply Nat.iter_succ_r.
    + intros [| j] Hjk; [exact E |].
      rewrite Nat.iter_succ_r. apply Hj. lia.
  - injection H as <-. apply Z.leb_gt in E. exists 0%nat.
    split; [reflexivity | split; [exact E | intros j Hj; lia]].
Qed.

(** What the computation of [coupncd] on calendar dates returns on a
    valid input: the corrected result of its loop. *)
Lemma coupncd_shape (s m : Date) (f b : Z) :
  ValidInput s m f b ->
  exists (k : nat) (r : Date),
    r = Nat.iter k (ncd_step f) (Unclipped.ncd_start s m)
    /\ wf r /\ valueOf s < valueOf r
    /\ (forall j, (j < k)%nat ->
          valueOf (Nat.iter j (ncd_step f) (Unclipped.ncd_start s m))
          <= valueOf s)
    /\ forall fuel, (9 <= fuel)%nat ->
         Unclipped.ncd fuel (JDate (Some s)) (JDate (Some m)) (JNumber f)
           (JNumber b) = Ret (Unclipped.ncd_finish m r).
Proof.
  intros Hv. pose proof Hv as (Hs & Hm & Hf & _).
  pose proof (coupncd_start_wf s m) as H0.
  pose proof (coupncd_start_monthIndex s m Hs Hm) as Hi.
  destruct (coupncd_loop_terminates 9 s (Unclipped.ncd_start s m) f
              Hf Hs H0) as [r Hr]; [lia |].
  destruct (coupncd_loop_steps _ _ _ _ _ Hr) as (k & Hk & Hlt & Hj).
  exists k, r. split; [exact Hk |]. split.
  { rewrite Hk. now apply iter_ncd_step_wf. }
  split; [exact Hlt |]. split; [exact Hj |].
  intros fuel Hfuel. rewrite (coupncd_unclipped_valid s m f b Hv).
  rewrite (coupncd_loop_more _ _ _ _ _ Hr fuel Hfuel). reflexivity.
Qed.

(** For a settlement in [InTimeRange] it is what [coupncd] returns. *)
Lemma coupncd_in_range_returns (s m : Date) (f b : Z) (ncd : Date) :
  ValidInput s m f b -> InTimeRange s ->
  (forall fuel, (9 <= fuel)%nat ->
     Unclipped.ncd fuel (JDate (Some s)) (JDate (Some m)) (JNumber f)
       (JNumber b) = Ret ncd) ->
  forall fuel, (9 <= fuel)%nat ->
    coupncd fuel (JDate (Some s)) (JDate (Some m)) (JNumber f) (JNumber b)
    = Ret ncd.
Proof.
  intros Hv Hr H fuel Hfuel.
  rewrite (coupncd_in_range s m f b Hv fuel Hr), (H fuel Hfuel). reflexivity.
Qed.

End FinishFacts.

Import FinishFacts.

(** X3. On a valid input whose settlement lies in [InTimeRange], so
    that no date [coupncd] builds leaves the range of time values, the
    object [coupncd] returns is a calendar date after settlement whose
    day of month is the day of month of maturity or a later one, unless
    it is the last day of its month. *)
Theorem coupncd_day_anchor (s m : Date) (f b : Z) :
  ValidInput s m f b -> InTimeRange s ->
  exists ncd : Date,
    wf ncd
    /\ valueOf s < valueOf ncd
    /\ (day m <= day ncd \/ isEOM ncd = true)
    /\ forall fuel, (9 <= fuel)%nat ->
         coupncd fuel (JDate (Some s)) (JDate (Some m)) (JNumber f)
           (JNumber b) = Ret ncd.
Proof.
  intros Hv Hi. pose proof Hv as (Hs & Hm & Hf & _).
  destruct (coupncd_shape s m f b Hv) as (k & r & _ & Hr & Hlt & _ & Hn).
  exists (Unclipped.ncd_finish m r).
  destruct (coupncd_finish_spec m r Hm Hr) as (Hw & _ & _ & Hday).
  split; [exact Hw |]. split.
  - pose proof (coupncd_finish_ge m r Hr).
    apply valueOf_lt_iff in Hlt. apply valueOf_lt_iff. lia.
  - split; [| exact (coupncd_in_range_returns s m f b _ Hv Hi Hn)].
    destruct Hday as [[E _] | [E _]]; [left; lia | right; exact E].
Qed.

Lemma coupncd_day_anchor_witness :
  ValidInput (mkDate 2026 9 15) (mkDate 2030 3 30) 4 0
  /\ InTimeRange (mkDate 2026 9 15)
  /\ exists ncd : Date,
    wf ncd
    /\ valueOf (mkDate 2026 9 15) < valueOf ncd
    /\ (day (mkDate 2030 3 30) <= day ncd \/ isEOM ncd = true)
    /\ forall fuel, (9 <= fuel)%nat ->
         coupncd fuel (JDate (Some (mkDate 2026 9 15)))
           (JDate (Some (mkDate 2030 3 30))) (JNumber 4) (JNumber 0)
         = Ret ncd.
Proof.
  split; [valid_input |]. split; [unfold InTimeRange; cbn; lia |].
  apply (coupncd_day_anchor _ _ 4 0);
    [valid_input | unfold InTimeRange; cbn; lia].
Defined.

Module StartFacts.

Lemma daysInMonth_year (y y' m : Z) :
  m <> 1 -> daysInMonth y m = daysInMonth y' m.
Proof.
  intros Hm. unfold daysInMonth.
  destruct (m =? 1) eqn:E; [apply Z.eqb_eq in E; contradiction | reflexivity].
Qed.

(** Outside the years 0 to 99, which the [Date] constructor reads as 1900
    to 1999, the forward loop of [coupncd] starts at a date that is not
    after settlement. *)
Lemma coupncd_start_le (s m : Date) :
  wf s -> wf m -> year s < 0 \/ 99 < year s ->
  valueOf (Unclipped.ncd_start s m) <= valueOf s.
Proof.
  intros Hs Hm Hy. pose proof Hm as [Hmm Hmd].
  unfold Unclipped.ncd_start, splitDate, Unclipped.new_date.
  assert (Q : (0 <=? year s) && (year s <=? 99) = false).
  { apply andb_false_iff. rewrite Z.leb_gt, Z.leb_gt. lia. }
  rewrite Q. replace (month m + 1 - 1) with (month m) by lia.
  set (d0 := fromFields (year s) (month m) (day m)).
  assert (H0 : wf d0) by apply fromFields_wf.
  assert (N0 : dayNumber d0
               = firstDay (12 * year s + month m) + day m - 1).
  { unfold d0. rewrite fromFields_dayNumber. apply MakeDay_firstDay. }
  pose proof (daysInMonth_bounds (year m) (month m)) as Bm.
  pose proof (daysInMonth_bounds (year s) (month m)) as Bs.
  pose proof (daysInMonth_firstDay (year s) (month m) Hmm) as F1.
  set (d1 := if negb (month m + 1 =? month d0)
             then Unclipped.set_date d0 0 else d0).
  assert (H1 : wf d1)
    by (unfold d1; destruct (negb _); [apply setUTCDate_wf | exact H0]).
  assert (I1 : monthIndex d1 <= 12 * year s + 10).
  { destruct (Z_le_gt_dec (day m) (daysInMonth (year s) (month m)))
      as [Hfit | Hover].
    - assert (E : d0 = mkDate (year s) (month m) (day m))
        by (apply fromFields_in_month; lia).
      unfold d1. rewrite E. cbn [month].
      replace (month m + 1 =? month m) with false
        by (symmetry; apply Z.eqb_neq; lia).
      cbn [negb]. set (r := Unclipped.set_date _ 0).
      assert (Hr : wf r) by apply setUTCDate_wf.
      assert (Nr : dayNumber r = firstDay (12 * year s + month m) - 1).
      { unfold r. rewrite setUTCDate_dayNumber, dayNumber_firstDay.
        unfold monthIndex. cbn [year month day]. lia. }
      pose proof (dayNumber_in_month r Hr) as [B _].
      destruct (Z_lt_le_dec (monthIndex r) (12 * year s + month m))
        as [L | G]; [lia |].
      pose proof (firstDay_le (12 * year s + month m) (monthIndex r) G). lia.
    - assert (M1 : month m = 1).
      { destruct (Z.eq_dec (month m) 1) as [| N]; [assumption |].
        rewrite (daysInMonth_year (year s) (year m) _ N) in Hover. lia. }
      assert (I0 : monthIndex d0 <= 12 * year s + 2).
      { pose proof (monthIndex_bracket d0 (12 * year s + month m)
                      (12 * year s + month m + 2) H0) as B.
        pose proof (firstDay_le (12 * year s + month m)
                      (12 * year s + month m + 2)). lia. }
      unfold d1. destruct (negb _); [| lia].
      set (r := Unclipped.set_date d0 0).
      assert (Hr : wf r) by apply setUTCDate_wf.
      assert (Nr : dayNumber r < dayNumber d0).
      { unfold r. rewrite setUTCDate_dayNumber. destruct H0 as [_ ?]. lia. }
      pose proof (dayNumber_le_monthIndex r d0 Hr H0 ltac:(lia)). lia. }
  destruct (valueOf s <? valueOf d1) eqn:E.
  - pose proof (addDate_monthIndex d1 (-1) 0 (isEOM m) H1) as [_ U].
    apply Z.lt_le_incl, valueOf_lt_iff.
    apply monthIndex_lt_dayNumber; [apply addDate_wf | exact Hs |].
    destruct Hs as [Hsm _]. unfold monthIndex at 2. lia.
  - apply Z.ltb_ge in E. exact E.
Qed.

End StartFacts.

Import StartFacts.

(** X4. On a valid input whose settlement lies in [InTimeRange] and
    has a year that is not one of the years 0 to 99, the date [coupncd]
    returns lies in the month of settlement or one of the [12 / f + 1]
    months after it. *)
Theorem coupncd_within_one_period (s m : Date) (f b : Z) :
  ValidInput s m f b -> InTimeRange s -> year s < 0 \/ 99 < year s ->
  exists ncd : Date,
    monthIndex s <= monthIndex ncd <= monthIndex s + 12 / f + 1
    /\ forall fuel, (9 <= fuel)%nat ->
         coupncd fuel (JDate (Some s)) (JDate (Some m)) (JNumber f)
           (JNumber b) = Ret ncd.
Proof.
  intros Hv Hi Hy. pose proof Hv as (Hs & Hm & Hf & _).
  destruct (coupncd_shape s m f b Hv) as (k & r & Hk & Hr & Hlt & Hj & Hn).
  pose proof (coupncd_start_le s m Hs Hm Hy) as H0.
  exists (Unclipped.ncd_finish m r).
  split; [| exact (coupncd_in_range_returns s m f b _ Hv Hi Hn)].
  destruct (coupncd_finish_spec m r Hm Hr) as (Hw & Ey & Em & _).
  assert (Ei : monthIndex (Unclipped.ncd_finish m r) = monthIndex r)
    by (unfold monthIndex; rewrite Ey, Em; reflexivity).
  rewrite Ei. split.
  - apply valueOf_lt_iff in Hlt.
    apply (dayNumber_le_monthIndex s r Hs Hr). lia.
  - destruct k as [| k]; [cbn [Nat.iter nat_rect] in Hk; subst r; lia |].
    pose proof (Hj k ltac:(lia)) as Hprev.
    cbn [Nat.iter nat_rect] in Hk.
    fold (Nat.iter k (ncd_step f) (Unclipped.ncd_start s m)) in Hk.
    set (p := Nat.iter k (ncd_step f) (Unclipped.ncd_start s m)) in *.
    assert (Hp : wf p)
      by (apply iter_ncd_step_wf; apply coupncd_start_wf).
    pose proof (ncd_step_monthIndex_upper f p Hf Hp) as U. rewrite <- Hk in U.
    apply valueOf_le_iff in Hprev.
    pose proof (dayNumber_le_monthIndex p s Hp Hs Hprev). lia.
Qed.

Lemma coupncd_within_one_period_witness :
  ValidInput (mkDate 2026 9 15) (mkDate 2030 3 30) 4 0
  /\ InTimeRange (mkDate 2026 9 15)
  /\ exists ncd : Date,
    monthIndex (mkDate 2026 9 15) <= monthIndex ncd
    <= monthIndex (mkDate 2026 9 15) + 12 / 4 + 1
    /\ forall fuel, (9 <= fuel)%nat ->
         coupncd fuel (JDate (Some (mkDate 2026 9 15)))
           (JDate (Some (mkDate 2030 3 30))) (JNumber 4) (JNumber 0)
         = Ret ncd.
Proof.
  split; [valid_input |]. split; [unfold InTimeRange; cbn; lia |].
  apply (coupncd_within_one_period _ _ 4 0);
    [valid_input | unfold InTimeRange; cbn; lia | cbn; lia].
Defined.

(** Inside the years 0 to 99 that bound fails: the constructor moves the
    start of the loop to the twentieth century. *)
Example coupncd_two_digit_year :
  coupncd 9 (JDate (Some (mkDate 50 5 15))) (JDate (Some (mkDate 52 5 15)))
    (JNumber 2) (JNumber 0)
  = Ret (mkDate 1949 4 31).
Proof. vm_compute. reflexivity. Qed.

(** ** Settlement on a coupon date *)

Module BoundaryFacts.

Lemma days360US_same (d : Date) : days360US d d = 0.
Proof.
  unfold days360US. cbv zeta.
  destruct ((month d =? 1) && isEOM d); cbn [andb].
  - change (30 =? 31) with false. cbn [andb]. lia.
  - destruct (day d =? 31) eqn:E31; cbn [andb].
    + destruct (30 <=? day d) eqn:E30; [lia |].
      apply Z.eqb_eq in E31. apply Z.leb_gt in E30. lia.
    + lia.
Qed.

Lemma daysBetween_same (d : Date) (basis : option Z) :
  daysBetween d d basis = 0.
Proof.
  unfold daysBetween, days360EU, daysActual.
  destruct basis as [n |]; [| apply days360US_same].
  destruct (n =? 0); [apply days360US_same |].
  destruct (n =? 4); [lia |].
  rewrite Z.sub_diag. reflexivity.
Qed.

End BoundaryFacts.

Import BoundaryFacts.

(** The backward loop stops on a stepped date that equals settlement. *)
Lemma couppcd_at_step (s m : Date) (f b : Z) (k : nat) :
  ValidInput s m f b ->
  s = Nat.iter k (pcd_step f (isEOM m)) m ->
  forall fuel, (coupon_fuel s m <= fuel)%nat ->
    couppcd fuel (JDate (Some s)) (JDate (Some m)) (JNumber f) (JNumber b)
    = Ret s.
Proof.
  intros Hv Hk fuel Hfuel. pose proof Hv as (Hs & Hm & Hf & _).
  destruct (couppcd_steps s m f b Hv) as (k' & _ & Hle & Hj & Hp).
  assert (E : k' = k).
  { destruct (Nat.lt_trichotomy k' k) as [L | [E | G]]; [| exact E |].
    - pose proof (iter_pcd_step_decreasing f (isEOM m) m k' k Hf Hm L) as D.
      rewrite <- Hk in D. lia.
    - pose proof (Hj k G) as D. rewrite <- Hk in D. lia. }
  subst k'. rewrite <- Hk in Hp. apply Hp. exact Hfuel.
Qed.

(** X5. When settlement is itself one of the dates stepped back from
    maturity, [couppcd] returns settlement (the loop stops on equality)
    and [coupdaybs] returns 0, under every basis. *)
Theorem settlement_on_coupon_date (s m : Date) (f b : Z) (k : nat) :
  ValidInput s m f b ->
  s = Nat.iter k (pcd_step f (isEOM m)) m ->
  forall fuel, (coupon_fuel s m <= fuel)%nat ->
    couppcd fuel (JDate (Some s)) (JDate (Some m)) (JNumber f) (JNumber b)
    = Ret s
    /\ coupdaybs fuel (JDate (Some s)) (JDate (Some m)) (JNumber f)
         (JNumber b) = Ret 0.
Proof.
  intros Hv Hk fuel Hfuel.
  assert (Ep : couppcd fuel (JDate (Some s)) (JDate (Some m)) (JNumber f)
                 (JNumber b) = Ret s)
    by exact (couppcd_at_step s m f b k Hv Hk fuel Hfuel).
  split; [exact Ep |].
  rewrite (coupdaybs_valid s m f b Hv fuel), Ep. cbn [bind].
  rewrite daysBetween_same. reflexivity.
Qed.

Lemma settlement_on_coupon_date_witness :
  couppcd 13 (JDate (Some (mkDate 2023 1 28)))
    (JDate (Some (mkDate 2024 1 29))) (JNumber 2) (JNumber 1)
  = Ret (mkDate 2023 1 28)
  /\ coupdaybs 13 (JDate (Some (mkDate 2023 1 28)))
       (JDate (Some (mkDate 2024 1 29))) (JNumber 2) (JNumber 1) = Ret 0.
Proof.
  refine (settlement_on_coupon_date (mkDate 2023 1 28) (mkDate 2024 1 29)
            2 1 2 _ _ 13%nat _).
  - valid_input.
  - vm_compute. reflexivity.
  - vm_compute. repeat constructor.
Defined.

(** ** Day counts under the actual bases *)

Lemma daysBetween_actual (a c : Date) (b : Z) :
  In b [1; 2; 3] -> daysBetween a c (Some b) = dayNumber c - dayNumber a.
Proof.
  intros Hb. unfold daysBetween, daysActual.
  replace (b =? 0) with false by (symmetry; apply Z.eqb_neq; cbn in Hb; lia).
  replace (b =? 4) with false by (symmetry; apply Z.eqb_neq; cbn in Hb; lia).
  rewrite !valueOf_dayNumber, <- Z.mul_sub_distr_l, Z.mul_comm.
  apply Z.div_mul. unfold msPerDay. lia.
Qed.

(** X6. On a valid input with basis 1, 2 or 3 (calendar days) whose
    settlement lies in [InTimeRange], so that [coupncd] returns a valid
    date, [coupdaybs] is never negative and [coupdaysnc] is strictly
    positive; with basis 1 their sum is [coupdays], as it is by
    construction with basis 0. *)
Theorem actual_day_counts (s m : Date) (f b : Z) :
  ValidInput s m f b -> InTimeRange s -> In b [1; 2; 3] ->
  exists daybs daysnc : Z,
    0 <= daybs /\ 0 < daysnc
    /\ forall fuel, (coupon_fuel s m <= fuel)%nat ->
         coupdaybs fuel (JDate (Some s)) (JDate (Some m)) (JNumber f)
           (JNumber b) = Ret daybs
         /\ coupdaysnc fuel (JDate (Some s)) (JDate (Some m)) (JNumber f)
              (JNumber b) = Ret daysnc
         /\ (b = 1 ->
             coupdays fuel (JDate (Some s)) (JDate (Some m)) (JNumber f)
               (JNumber b) = Ret (daybs + daysnc)).
Proof.
  intros Hv Hi Hb.
  destruct (couppcd_returns s m f b Hv) as (pcd & _ & Hle & Hp).
  destruct (coupncd_unclipped_returns s m f b Hv) as (ncd & _ & Hlt & Hn).
  apply valueOf_le_iff in Hle. apply valueOf_lt_iff in Hlt.
  exists (dayNumber s - dayNumber pcd), (dayNumber ncd - dayNumber s).
  split; [lia |]. split; [lia |]. intros fuel Hfuel.
  apply coupon_fuel_enough in Hfuel as [H9 H2].
  assert (N0 : (b =? 0) = false) by (apply Z.eqb_neq; cbn in Hb; lia).
  rewrite (coupdaybs_valid s m f b Hv fuel), (coupdaysnc_valid s m f b Hv fuel),
    (coupdays_valid s m f b Hv fuel), N0, (Hp fuel H2),
    (coupncd_in_range s m f b Hv fuel Hi), (Hn fuel H9).
  cbn [bind daysBetweenObj validObj]. rewrite !(daysBetween_actual _ _ b Hb).
  split; [reflexivity |]. split; [reflexivity |].
  intros ->. cbn [Z.eqb Pos.eqb]. do 2 f_equal. lia.
Qed.

Lemma actual_day_counts_witness :
  ValidInput (mkDate 2011 0 25) (mkDate 2011 10 15) 2 1
  /\ InTimeRange (mkDate 2011 0 25)
  /\ exists daybs daysnc : Z,
    0 <= daybs /\ 0 < daysnc
    /\ forall fuel,
         (coupon_fuel (mkDate 2011 0 25) (mkDate 2011 10 15) <= fuel)%nat ->
         coupdaybs fuel (JDate (Some (mkDate 2011 0 25)))
           (JDate (Some (mkDate 2011 10 15))) (JNumber 2) (JNumber 1)
         = Ret daybs
         /\ coupdaysnc fuel (JDate (Some (mkDate 2011 0 25)))
              (JDate (Some (mkDate 2011 10 15))) (JNumber 2) (JNumber 1)
            = Ret daysnc
         /\ (1 = 1 ->
             coupdays fuel (JDate (Some (mkDate 2011 0 25)))
               (JDate (Some (mkDate 2011 10 15))) (JNumber 2) (JNumber 1)
             = Ret (daybs + daysnc)).
Proof.
  split; [valid_input |]. split; [unfold InTimeRange; cbn; lia |].
  apply (actual_day_counts _ _ 2 1);
    [valid_input | unfold InTimeRange; cbn; lia | cbn; lia].
Defined.

(** ** The count of coupons against the months to maturity *)



(** ** The day of month of the previous coupon date *)

Lemma iter_pcd_step_eom (f : Z) (m : Date) (k : nat) :
  isEOM m = true -> isEOM (Nat.iter k (pcd_step f true) m) = true.
Proof.
  intros He. induction k as [| k IH]; [exact He |].
  cbn [Nat.iter nat_rect]. unfold pcd_step at 1.
  apply (addDate_eom _ 0 (-12 / f) 0 IH).
Qed.

Lemma iter_pcd_step_day (f : Z) (m : Date) (k : nat) :
  wf m -> day m <= 28 ->
  wf (Nat.iter k (pcd_step f false) m)
  /\ day (Nat.iter k (pcd_step f false) m) = day m.
Proof.
  intros Hm Hd.
  induction k as [| k [IHw IHd]]; [split; [exact Hm | reflexivity] |].
  cbn [Nat.iter nat_rect]. fold (Nat.iter k (pcd_step f false) m).
  destruct (addDate_small_day _ 0 (-12 / f) IHw ltac:(lia)) as [E _].
  unfold pcd_step at 1 3. split; [apply addDate_wf | lia].
Qed.



(** ** The nominal length of a period *)

(** X9. On a valid input with a basis other than 1 [coupdays] needs no
    coupon date: it returns 360, 180 or 90 for bases 0, 2 and 4, and 365,
    183 or 91 for basis 3, by frequency 1, 2 or 4; half a day is rounded
    up. *)
Theorem coupdays_nominal (s m : Date) (f b : Z) :
  ValidInput s m f b -> b <> 1 ->
  forall fuel,
    coupdays fuel (JDate (Some s)) (JDate (Some m)) (JNumber f) (JNumber b)
    = Ret (if b =? 3
           then (if f =? 1 then 365 else if f =? 2 then 183 else 91)
           else 360 / f).
Proof.
  intros Hv Hb1 fuel. pose proof Hv as (_ & _ & Hf & Hb & _).
  rewrite (coupdays_valid s m f b Hv fuel).
  cbn in Hf, Hb.
  destruct Hf as [<- | [<- | [<- | []]]];
    destruct Hb as [<- | [<- | [<- | [<- | [<- | []]]]]];
    try contradiction; vm_compute; reflexivity.
Qed.

Lemma coupdays_nominal_witness :
  coupdays 0 (JDate (Some (mkDate 2026 2 15)))
    (JDate (Some (mkDate 2026 4 30))) (JNumber 2) (JNumber 3)
  = Ret 183.
Proof.
  refine (coupdays_nominal (mkDate 2026 2 15) (mkDate 2026 4 30) 2 3
            _ _ 0%nat); [valid_input | discriminate].
Defined.

(** ** Values are returned on valid arguments only *)

Lemma argsValidator_ret_inv (name : string) (s m f b : JsVal) :
  argsValidator name s m f b = Ret true ->
  exists sd md fn bn,
    s = JDate (Some sd) /\ m = JDate (Some md)
    /\ f = JNumber fn /\ In fn [1; 2; 4]
    /\ b = JNumber bn /\ In bn [0; 1; 2; 3; 4]
    /\ 0 < daysBetween sd md None.
Proof.
  unfold argsValidator.
  destruct (hasRequiredArgs [s; m; f]); cbn [negb]; [| discriminate].
  destruct s as [| | | [sd |]]; cbn [validDate negb]; try discriminate.
  destruct m as [| | | [md |]]; cbn [validDate negb]; try discriminate.
  destruct (validFrequency f) eqn:Ef; cbn [negb]; [| discriminate].
  destruct (validBasis b) eqn:Eb; cbn [negb]; [| discriminate].
  destruct f as [| fn | |]; try discriminate Ef.
  destruct b as [| bn | |]; try discriminate Eb.
  cbn [dateOf].
  destruct (daysBetween sd md None <=? 0) eqn:Ed; [discriminate |].
  intros _. exists sd, md, fn, bn.
  apply validFrequency_iff in Ef. apply validBasis_iff in Eb.
  apply Z.leb_gt in Ed. repeat split; assumption.
Qed.

(** X10. No exported function returns a value on arguments the validator
    rejects: if one of them returns, settlement and maturity are valid
    dates with a positive basis-0 day count from the first to the second
    (so settlement is the earlier calendar date), the frequency is 1, 2
    or 4 and the basis is omitted or one of 0 to 4. *)
Theorem value_only_on_valid_arguments (fuel : nat) (s m f basis : JsVal) :
  (exists v, couppcd fuel s m f basis = Ret v)
  \/ (exists v, coupncd fuel s m f basis = Ret v)
  \/ (exists v, coupdaybs fuel s m f basis = Ret v)
  \/ (exists v, coupdays fuel s m f basis = Ret v)
  \/ (exists v, coupdaysnc fuel s m f basis = Ret v)
  \/ (exists v, coupnum fuel s m f basis = Ret v) ->
  exists sd md fn,
    s = JDate (Some sd) /\ m = JDate (Some md)
    /\ f = JNumber fn /\ In fn [1; 2; 4]
    /\ (basis = JUndefined
        \/ exists bn, basis = JNumber bn /\ In bn [0; 1; 2; 3; 4])
    /\ 0 < daysBetween sd md None
    /\ (wf sd -> wf md -> valueOf sd < valueOf md).
Proof.
  intros H.
  assert (Hok : argsValidator "" s m f (orDefault basis (JNumber 0))
                = Ret true).
  { destruct (argsValidator_cases s m f (orDefault basis (JNumber 0)))
      as [Hok | (c & k & Hbad)]; [apply Hok | exfalso].
    destruct (validator_error_propagates fuel s m f basis k c Hbad)
      as (E1 & E2 & E3 & E4 & E5 & E6).
    destruct H as [[v H] | [[v H] | [[v H] | [[v H] | [[v H] | [v H]]]]]];
      congruence. }
  destruct (argsValidator_ret_inv _ _ _ _ _ Hok)
    as (sd & md & fn & bn & -> & -> & -> & Hf & Eb & Hb & Hd).
  exists sd, md, fn. repeat split; try assumption.
  - destruct basis as [| n | |]; cbn [orDefault] in Eb; try discriminate Eb.
    + left; reflexivity.
    + right. exists bn. split; [exact Eb | exact Hb].
  - intros Hs Hm. now apply daysBetween_default_pos.
Qed.

Lemma value_only_on_valid_arguments_witness :
  exists sd md fn,
    JDate (Some (mkDate 2023 0 15)) = JDate (Some sd)
    /\ JDate (Some (mkDate 2025 6 31)) = JDate (Some md)
    /\ JNumber 2 = JNumber fn /\ In fn [1; 2; 4]
    /\ (JUndefined = JUndefined
        \/ exists bn, JUndefined = JNumber bn /\ In bn [0; 1; 2; 3; 4])
    /\ 0 < daysBetween sd md None
    /\ (wf sd -> wf md -> valueOf sd < valueOf md).
Proof.
  apply (value_only_on_valid_arguments 0 (JDate (Some (mkDate 2023 0 15)))
           (JDate (Some (mkDate 2025 6 31))) (JNumber 2) JUndefined).
  right. right. right. left. exists 180. vm_compute. reflexivity.
Defined.

(** ** Annual coupons *)

(** A date that is not a month end falls on a day its month has in every
    year. *)
Lemma not_eom_day_every_year (d : Date) (y : Z) :
  wf d -> isEOM d = false -> day d <= daysInMonth y (month d).
Proof.
  intros [_ Hd] He. unfold isEOM in He. apply Z.eqb_neq in He.
  destruct (Z.eq_dec (month d) 1) as [E | N].
  - pose proof (daysInMonth_bounds y (month d)).
    rewrite E in *. unfold daysInMonth in Hd, He. cbn in Hd, He.
    destruct (isLeapYear (year d)); lia.
  - rewrite (daysInMonth_year y (year d) _ N). lia.
Qed.

(** Twelve months back from such a date is the same day of the same
    month a year earlier. *)
Lemma pcd_step_annual (m d : Date) :
  wf m -> isEOM m = false -> wf d -> month d = month m -> day d = day m ->
  pcd_step 1 false d = mkDate (year d - 1) (month d) (day d).
Proof.
  intros Hm He Hd Em Ed. unfold pcd_step, addDate. cbn [andb].
  change (-12 / 1) with (-12).
  pose proof Hd as [Hdm Hdd].
  assert (Hx : wf (mkDate (year d - 1) (month d) (day d))).
  { split; cbn [year month day]; [exact Hdm |].
    pose proof (not_eom_day_every_year m (year d - 1) Hm He).
    rewrite Em, Ed. destruct Hm as [_ ?]. lia. }
  apply wf_eq_of_dayNumber; [apply fromFields_wf | exact Hx |].
  rewrite fromFields_dayNumber, (MakeDay_norm (year d + 0)).
  unfold dayNumber; cbn [year month day].
  replace (year d + 0 + (month d + -12) / 12) with (year d - 1)
    by (Z.div_mod_to_equations; lia).
  replace ((month d + -12) mod 12) with (month d)
    by (Z.div_mod_to_equations; lia).
  f_equal. lia.
Qed.

Lemma iter_pcd_step_annual (m : Date) (k : nat) :
  wf m -> isEOM m = false ->
  Nat.iter k (pcd_step 1 false) m
  = mkDate (year m - Z.of_nat k) (month m) (day m).
Proof.
  intros Hm He. induction k as [| k IH].
  - cbn [Nat.iter nat_rect]. change (Z.of_nat 0) with 0.
    destruct m as [y mo d]; cbn [year month day]. f_equal. lia.
  - cbn [Nat.iter nat_rect]. fold (Nat.iter k (pcd_step 1 false) m).
    rewrite IH, (pcd_step_annual m); cbn [year month day];
      try reflexivity; try assumption.
    + f_equal. lia.
    + rewrite <- IH. now apply iter_pcd_step_wf.
Qed.



(** ** The sign of the days from the start of the period *)

Lemma days360US_nonneg (a c : Date) :
  wf a -> wf c -> dayNumber a <= dayNumber c -> 0 <= days360US a c.
Proof.
  intros Ha Hc Hle.
  pose proof (dayNumber_le_fields c a Hc Ha Hle) as Hf.
  destruct Ha as [Hma Hda], Hc as [Hmc Hdc].
  pose proof (daysInMonth_bounds (year a) (month a)).
  pose proof (daysInMonth_bounds (year c) (month c)).
  unfold days360US, isEOM, monthIndex in *. cbv zeta.
  destruct ((month a =? 1) && (day a =? daysInMonth (year a) (month a)))
    eqn:Fa;
    destruct ((month c =? 1) && (day c =? daysInMonth (year c) (month c)))
      eqn:Fc; cbn [andb];
    repeat match goal with
           | |- context [if ?c then _ else _] => destruct c eqn:?
           end;
    rewrite ?andb_true_iff, ?andb_false_iff, ?Z.eqb_eq, ?Z.eqb_neq,
      ?Z.leb_le, ?Z.leb_gt in *;
    destruct Hf as [Hlt | (Ey & Em & Ed)]; try lia;
    rewrite ?Ey, ?Em in *; lia.
Qed.

Lemma days360EU_nonneg (a c : Date) :
  wf a -> wf c -> dayNumber a <= dayNumber c -> 0 <= days360EU a c.
Proof.
  intros Ha Hc Hle.
  pose proof (dayNumber_le_fields c a Hc Ha Hle) as Hf.
  destruct Ha as [Hma Hda], Hc as [Hmc Hdc].
  pose proof (daysInMonth_bounds (year a) (month a)).
  pose proof (daysInMonth_bounds (year c) (month c)).
  unfold days360EU, monthIndex in *. lia.
Qed.

Lemma daysBetween_nonneg (a c : Date) (basis : option Z) :
  wf a -> wf c -> valueOf a <= valueOf c -> 0 <= daysBetween a c basis.
Proof.
  intros Ha Hc Hle. apply valueOf_le_iff in Hle.
  unfold daysBetween. destruct basis as [n |];
    [| now apply days360US_nonneg].
  destruct (n =? 0); [now apply days360US_nonneg |].
  destruct (n =? 4); [now apply days360EU_nonneg |].
  unfold daysActual. rewrite !valueOf_dayNumber, <- Z.mul_sub_distr_l.
  rewrite Z.mul_comm, Z.div_mul by (unfold msPerDay; lia). lia.
Qed.



(** ** Moving the settlement date *)



(** ** Taking the previous coupon date as settlement *)

Lemma days360US_pos (a c : Date) :
  wf a -> wf c -> monthIndex a < monthIndex c -> 0 < days360US a c.
Proof.
  intros [Hma Hda] [Hmc Hdc] Hlt.
  pose proof (daysInMonth_bounds (year a) (month a)).
  pose proof (daysInMonth_bounds (year c) (month c)).
  unfold days360US, isEOM, monthIndex in *. cbv zeta.
  destruct ((month a =? 1) && (day a =? daysInMonth (year a) (month a)))
    eqn:Fa;
    destruct ((month c =? 1) && (day c =? daysInMonth (year c) (month c)))
      eqn:Fc; cbn [andb];
    repeat match goal with
           | |- context [if ?c then _ else _] => destruct c eqn:?
           end;
    rewrite ?andb_true_iff, ?andb_false_iff, ?Z.eqb_eq, ?Z.eqb_neq,
      ?Z.leb_le, ?Z.leb_gt in *; lia.
Qed.


